(** * Batched linear-algebra kernels of [elastica/_linalg.py]

    A shallow embedding of the four functions of the module,

      - [levi_civita_tensor]  (with its [functools.lru_cache(maxsize=1)]),
      - [_batch_matvec]       [np.einsum("ijk,jk->ik", ...)],
      - [_batch_matmul]       [np.einsum("ijk,jlk->ilk", ...)],
      - [_batch_cross]        [np.einsum("ijk,jl,kl->il", eps, ...)],

    together with the part of NumPy they rest on: n-dimensional arrays
    (a shape and the elements in row-major order), [np.zeros] with the
    limits of the environment it runs in, item assignment,
    [itertools.permutations] and [np.einsum] on explicit subscript
    strings.

    Array elements live in an arbitrary commutative ring ([dtype]): the
    statements are those of exact arithmetic, and rounding of
    floating-point numbers is outside the model. *)

From Stdlib Require Import String Ascii.
From Stdlib Require Import List Arith NArith ZArith Lia Bool Permutation.
From Stdlib Require Import Ring Ring_theory InitialRing.
Import ListNotations.

Set Implicit Arguments.

(** ** Element types *)

(** The element type of an array: a carrier with the ring operations.
    [of_int] below is the conversion NumPy applies when a Python integer
    is stored into the array. *)
Record dtype : Type := Dtype {
  carrier :> Type;
  zero : carrier;
  one : carrier;
  add : carrier -> carrier -> carrier;
  mul : carrier -> carrier -> carrier;
  sub : carrier -> carrier -> carrier;
  opp : carrier -> carrier;
  dtype_ring : ring_theory zero one add mul sub opp eq
}.

(** Integers as an element type; the concrete evaluations below use it. *)
Definition int_dtype : dtype := Dtype Zth.

(** ** Outcomes of a call *)

(** The exceptions the modelled calls can raise.  NumPy reports the four
    [ValueError_...] ones as [ValueError]; the constructor records which
    one.

    - [IndexError]: [shape[0]] of an array without axes.
    - [MemoryError]: [np.zeros] could not allocate the array.
    - [ValueError_zeros]: [np.zeros] was asked for more axes or more
      elements than an array can have.
    - [ValueError_operands]: the subscript string names a different
      number of operands than were passed.
    - [ValueError_subscripts k]: operand [k] does not have as many axes
      as its term has subscripts.
    - [ValueError_broadcast shapes]: "operands could not be broadcast
      together"; the message lists the operands' shapes. *)
Inductive exn : Type :=
| IndexError
| MemoryError
| ValueError_zeros
| ValueError_operands
| ValueError_subscripts (operand : nat)
| ValueError_broadcast (shapes : list (list nat)).

Inductive result (A : Type) : Type :=
| Ok (a : A)
| Raise (e : exn).

Arguments Ok {A} a.
Arguments Raise {A} e.

Definition result_map {A B : Type} (f : A -> B) (r : result A) : result B :=
  match r with
  | Ok a => Ok (f a)
  | Raise e => Raise e
  end.

Definition result_bind {A B : Type} (r : result A) (k : A -> result B)
  : result B :=
  match r with
  | Ok a => k a
  | Raise e => Raise e
  end.

(** ** Index arithmetic shared by all arrays *)

Definition prod (shp : list nat) : nat := fold_right Nat.mul 1 shp.

(** The environment the module runs in: the NumPy build and the machine.
    [alloc_error shp] is the exception [np.zeros(shp)] raises there, if
    it raises: a shape of too many axes or too many elements, or one the
    machine has no memory for.  An array of at most 4 axes and 256
    elements is allocated in every environment. *)
Record environment : Type := Environment {
  alloc_error : list nat -> option exn;
  alloc_small :
    forall shp, length shp <= 4 -> prod shp <= 256 -> alloc_error shp = None
}.

(** Row-major offset of a multi-index in an array of shape [shp]. *)
Fixpoint ravel (shp idx : list nat) : nat :=
  match shp, idx with
  | _ :: shp', i :: idx' => i * prod shp' + ravel shp' idx'
  | _, _ => 0
  end.

(** All multi-indices below [sizes], in row-major order. *)
Fixpoint indices (sizes : list nat) : list (list nat) :=
  match sizes with
  | [] => [[]]
  | n :: rest => flat_map (fun i => map (cons i) (indices rest)) (seq 0 n)
  end.

(** [range(dim)]. *)
Definition range (dim : nat) : list nat := seq 0 dim.

(** In-place update of position [n] of a list; a position past the end
    leaves the list as it is. *)
Fixpoint list_set {A : Type} (l : list A) (n : nat) (x : A) : list A :=
  match l, n with
  | [], _ => []
  | _ :: l', 0 => x :: l'
  | y :: l', S n' => y :: list_set l' n' x
  end.

(** ** [itertools.permutations] *)

(** Every way of taking one element out of a list, in order of position:
    the element and what remains. *)
Fixpoint selections {A : Type} (l : list A) : list (A * list A) :=
  match l with
  | [] => []
  | x :: l' => (x, l') :: map (fun '(y, rest) => (y, x :: rest)) (selections l')
  end.

(** [permutations(iterable, r)]: the [r]-length tuples of elements at
    distinct positions, in lexicographic order of the positions. *)
Fixpoint permutations {A : Type} (l : list A) (r : nat) : list (list A) :=
  match r with
  | 0 => [[]]
  | S r' =>
      flat_map (fun '(x, rest) => map (cons x) (permutations rest r'))
               (selections l)
  end.

(** ** [perm_parity] *)

(** Number of elements of [l] that are smaller than [x]. *)
Definition count_smaller (x : nat) (l : list nat) : nat :=
  length (filter (fun y => y <? x) l).

(** Number of pairs of positions of [l] that are out of order. *)
Fixpoint inversions (l : list nat) : nat :=
  match l with
  | [] => 0
  | x :: l' => count_smaller x l' + inversions l'
  end.

(** Modelled from the spec: [perm_parity] of [elastica/utils.py], whose
    source is absent.  The sign of a permutation, +1 when it is even and
    -1 when it is odd; the parity of a permutation is that of its number
    of inversions. *)
Definition perm_sign (p : list nat) : Z :=
  if Nat.even (inversions p) then 1%Z else (-1)%Z.

(** [p] is a permutation of [0..length p - 1]. *)
Definition is_permutation (p : list nat) : bool :=
  forallb (fun i => existsb (Nat.eqb i) p) (seq 0 (length p)).

(** ** Subscript strings of [np.einsum] *)

(** An explicit subscript string ["term,term,...->term"] split into the
    operands' terms and the output term.  The three strings of the module
    are of this form: an arrow, no ellipsis, no space, and no subscript
    twice in one term.  (A string without an arrow, which NumPy reads in
    its implicit mode, is outside the model.) *)
Fixpoint parse_terms (s cur : list ascii) (acc : list (list ascii))
  : list (list ascii) * list ascii :=
  match s with
  | [] => (rev acc, rev cur)
  | "-"%char :: ">"%char :: s' => (rev (rev cur :: acc), s')
  | ","%char :: s' => parse_terms s' [] (rev cur :: acc)
  | c :: s' => parse_terms s' (c :: cur) acc
  end.

Definition parse_subscripts (s : string) : list (list ascii) * list ascii :=
  parse_terms (list_ascii_of_string s) [] [].

(** An assignment of an index to each subscript. *)
Definition env : Type := list (ascii * nat).

Fixpoint lookup (e : env) (c : ascii) : nat :=
  match e with
  | [] => 0
  | (c', n) :: e' => if Ascii.eqb c c' then n else lookup e' c
  end.

(** NumPy's broadcasting of two extents of one subscript: an extent of 1
    stretches to the other one, equal extents agree, anything else is an
    error. *)
Definition broadcast_dim (a b : nat) : option nat :=
  if a =? 1 then Some b
  else if b =? 1 then Some a
  else if a =? b then Some a
  else None.

(** The extents subscript [c] has in one operand. *)
Definition label_dims (c : ascii) (term : list ascii) (shp : list nat)
  : list nat :=
  map snd (filter (fun '(c', _) => Ascii.eqb c c') (combine term shp)).

Fixpoint broadcast_all (acc : nat) (dims : list nat) : option nat :=
  match dims with
  | [] => Some acc
  | n :: dims' =>
      match broadcast_dim acc n with
      | Some acc' => broadcast_all acc' dims'
      | None => None
      end
  end.

(** The extent of subscript [c] over all operands, after broadcasting. *)
Definition label_size (c : ascii) (terms : list (list ascii))
           (shapes : list (list nat)) : option nat :=
  broadcast_all 1
    (flat_map (fun '(term, shp) => label_dims c term shp)
              (combine terms shapes)).

Fixpoint label_sizes (cs : list ascii) (terms : list (list ascii))
         (shapes : list (list nat)) : option (list nat) :=
  match cs with
  | [] => Some []
  | c :: cs' =>
      match label_size c terms shapes, label_sizes cs' terms shapes with
      | Some n, Some ns => Some (n :: ns)
      | _, _ => None
      end
  end.

(** The first operand whose number of axes differs from the number of
    subscripts of its term. *)
Fixpoint rank_mismatch (k : nat) (terms : list (list ascii))
         (shapes : list (list nat)) : option nat :=
  match terms, shapes with
  | term :: terms', shp :: shapes' =>
      if length term =? length shp
      then rank_mismatch (S k) terms' shapes'
      else Some k
  | _, _ => None
  end.

Definition mem (c : ascii) (cs : list ascii) : bool :=
  existsb (Ascii.eqb c) cs.

(** The subscripts that are summed: those of the operands' terms that the
    output term does not name, once each. *)
Fixpoint summed_labels (seen cs : list ascii) : list ascii :=
  match cs with
  | [] => []
  | c :: cs' =>
      if mem c seen then summed_labels seen cs'
      else c :: summed_labels (c :: seen) cs'
  end.

(** The multi-index an operand is read at: the index of each of its
    subscripts, and 0 along an axis of extent 1 (broadcast). *)
Definition operand_index (e : env) (term : list ascii) (shp : list nat)
  : list nat :=
  map (fun '(c, n) => if n =? 1 then 0 else lookup e c) (combine term shp).

(** ** Arrays and the kernels *)

Section Kernels.

Variable K : dtype.

Variable Env : environment.

(** The integer parity function the tensor is built with:
    [elastica.utils.perm_parity].  Its source is not part of the module;
    the theorems that depend on its values assume the contract the
    specification gives it (see [perm_parity_contract]). *)
Variable perm_parity : list nat -> Z.

(** An [numpy.ndarray]: its shape and its elements in row-major order. *)
Record ndarray : Type := NDArray {
  shape : list nat;
  data : list K
}.

(** The elements are as many as the shape says. *)
Definition well_formed (a : ndarray) : Prop :=
  length (data a) = prod (shape a).

(** [a.ndim]. *)
Definition ndim (a : ndarray) : nat := length (shape a).

(** [a[idx]] for a full multi-index [idx] within the shape, where NumPy
    reads one element. *)
Definition item (a : ndarray) (idx : list nat) : K :=
  nth (ravel (shape a) idx) (data a) (zero K).

(** [a[idx] = x] for a full multi-index [idx] within the shape, where
    NumPy assigns one element.  (Outside the shape NumPy raises
    [IndexError]; the one caller, [levi_civita_tensor], only assigns
    within the shape: [permutations_in_bounds].) *)
Definition setitem (a : ndarray) (idx : list nat) (x : K) : ndarray :=
  NDArray (shape a) (list_set (data a) (ravel (shape a) idx) x).

(** The array of zeros of shape [shp]. *)
Definition zeros (shp : list nat) : ndarray :=
  NDArray shp (repeat (zero K) (prod shp)).

(** [np.zeros(shp)]: the array of zeros, or the exception of the
    environment for a shape it cannot allocate. *)
Definition np_zeros (shp : list nat) : result ndarray :=
  match alloc_error Env shp with
  | Some e => Raise e
  | None => Ok (zeros shp)
  end.

(** Unary minus, [-a]. *)
Definition neg (a : ndarray) : ndarray :=
  NDArray (shape a) (map (opp K) (data a)).

(** A Python integer stored into an array of this element type. *)
Definition of_int (z : Z) : K :=
  gen_phiZ (zero K) (one K) (add K) (mul K) (opp K) z.

Definition sum_list (xs : list K) : K := fold_right (add K) (zero K) xs.

(** [sum(f(j) for j in range(n))]. *)
Definition sum_range (n : nat) (f : nat -> K) : K :=
  sum_list (map f (seq 0 n)).

Definition product_list (xs : list K) : K := fold_right (mul K) (one K) xs.

(** *** [np.einsum] *)

(** The product of the operands' elements selected by [e]. *)
Definition term_product (e : env) (terms : list (list ascii))
           (ops : list ndarray) : K :=
  product_list
    (map (fun '(term, a) => item a (operand_index e term (shape a)))
         (combine terms ops)).

(** The contraction proper: the output has one element per multi-index
    of the output subscripts, the sum over all multi-indices of the
    summed subscripts of the product of the operands' elements. *)
Definition contract (terms : list (list ascii)) (out sums : list ascii)
           (out_sizes sum_sizes : list nat) (ops : list ndarray) : ndarray :=
  NDArray out_sizes
    (map (fun oidx =>
            sum_list
              (map (fun sidx =>
                      term_product (combine out oidx ++ combine sums sidx)
                                   terms ops)
                   (indices sum_sizes)))
         (indices out_sizes)).

(** [np.einsum(subscripts, *ops)] for an explicit subscript string, as
    the kernels call it (the default [optimize=False]).  NumPy first
    reads the string operand by operand, raising [ValueError] when the
    operands are not as many as the terms or when an operand does not
    have as many axes as its term has subscripts; it then iterates over
    the operands together, raising [ValueError] when the extents of a
    subscript cannot be broadcast.  No element is computed before the
    checks have passed. *)
Definition einsum (subscripts : string) (ops : list ndarray)
  : result ndarray :=
  let '(terms, out) := parse_subscripts subscripts in
  let shapes := map shape ops in
  if negb (length terms =? length ops) then Raise ValueError_operands
  else
    match rank_mismatch 0 terms shapes with
    | Some k => Raise (ValueError_subscripts k)
    | None =>
        let sums := summed_labels out (concat terms) in
        match label_sizes out terms shapes, label_sizes sums terms shapes with
        | Some out_sizes, Some sum_sizes =>
            Ok (contract terms out sums out_sizes sum_sizes ops)
        | _, _ => Raise (ValueError_broadcast shapes)
        end
    end.

(** *** [levi_civita_tensor] *)

(** The loop of [levi_civita_tensor]: the entry of [epsilon] at every
    permutation of [range(dim)] is set to that permutation's parity. *)
Definition fill_parities (dim : nat) (epsilon : ndarray) : ndarray :=
  fold_left
    (fun epsilon index_tup =>
       setitem epsilon index_tup (of_int (perm_parity index_tup)))
    (permutations (range dim) dim)
    epsilon.

(** The body of [levi_civita_tensor]: [np.zeros((dim,) * dim)], which may
    raise, then the loop. *)
Definition levi_civita_tensor_body (dim : nat) : result ndarray :=
  match np_zeros (repeat dim dim) with
  | Ok epsilon => Ok (fill_parities dim epsilon)
  | Raise e => Raise e
  end.

(** The tensor the body returns when it returns. *)
Definition levi_civita_array (dim : nat) : ndarray :=
  fill_parities dim (zeros (repeat dim dim)).

(** The state of [functools.lru_cache(maxsize=1)]: the one entry it
    holds, and the counters [cache_info()] reports. *)
Record lru_cache : Type := LruCache {
  entry : option (nat * ndarray);
  hits : nat;
  misses : nat
}.

(** The cache of a freshly imported module. *)
Definition empty_cache : lru_cache := LruCache None 0 0.

(** A call of the decorated [levi_civita_tensor].  The entry is returned
    when its key is [dim].  Otherwise the call counts as a miss and the
    body runs: its result replaces the entry, and when it raises the
    entry stays as it was. *)
Definition levi_civita_tensor (dim : nat) (c : lru_cache)
  : result ndarray * lru_cache :=
  let miss :=
    match levi_civita_tensor_body dim with
    | Ok epsilon =>
        (Ok epsilon, LruCache (Some (dim, epsilon)) (hits c) (S (misses c)))
    | Raise e => (Raise e, LruCache (entry c) (hits c) (S (misses c)))
    end in
  match entry c with
  | Some (key, epsilon) =>
      if key =? dim
      then (Ok epsilon, LruCache (entry c) (S (hits c)) (misses c))
      else miss
  | None => miss
  end.

(** The cache after a sequence of calls. *)
Definition cache_after (dims : list nat) (c : lru_cache) : lru_cache :=
  fold_left (fun c dim => snd (levi_civita_tensor dim c)) dims c.

(** What the cache holds is what the body computes for its key: true of
    the empty cache and kept by every call. *)
Definition coherent (c : lru_cache) : Prop :=
  match entry c with
  | Some (key, epsilon) => levi_civita_tensor_body key = Ok epsilon
  | None => True
  end.

(** *** The three kernels *)

Definition _batch_matvec (matrix_collection vector_collection : ndarray)
  : result ndarray :=
  einsum "ijk,jk->ik" [matrix_collection; vector_collection].

Definition _batch_matmul
           (first_matrix_collection second_matrix_collection : ndarray)
  : result ndarray :=
  einsum "ijk,jlk->ilk" [first_matrix_collection; second_matrix_collection].

(** [first_vector_collection.shape[0]] raises [IndexError] on an array
    without axes; the tensor is fetched before [np.einsum] checks
    anything, and an exception of [levi_civita_tensor] ends the call. *)
Definition _batch_cross
           (first_vector_collection second_vector_collection : ndarray)
           (c : lru_cache) : result ndarray * lru_cache :=
  match shape first_vector_collection with
  | [] => (Raise IndexError, c)
  | dim :: _ =>
      let '(tensor, c') := levi_civita_tensor dim c in
      (result_bind tensor
         (fun epsilon =>
            einsum "ijk,jl,kl->il"
                   [epsilon; first_vector_collection;
                    second_vector_collection]),
       c')
  end.

End Kernels.

Arguments NDArray {K} shape data.
Arguments neg {K} a.
Arguments zeros K shp : clear implicits.
Arguments empty_cache K : clear implicits.

(** A multi-index within a shape: as many components as the shape has
    axes, each below the extent of its axis. *)
Definition in_bounds (idx shp : list nat) : Prop := Forall2 lt idx shp.

(** Two extents of one subscript that NumPy accepts together. *)
Definition agree (a b : nat) : Prop := a = b \/ a = 1 \/ b = 1.

(** The contract the specification gives [perm_parity]: on a permutation
    of [0..d-1] it returns the permutation's sign. *)
Definition perm_parity_contract (perm_parity : list nat -> Z) : Prop :=
  forall p, is_permutation p = true -> perm_parity p = perm_sign p.

(** The multi-index [idx] with the components at positions [a] and [b]
    exchanged. *)
Definition swap (a b : nat) (idx : list nat) : list nat :=
  list_set (list_set idx a (nth b idx 0)) b (nth a idx 0).

(** [a.astype(K)] for an integer array [a]. *)
Definition astype (K : dtype) (a : ndarray int_dtype) : ndarray K :=
  NDArray (shape a) (map (of_int K) (data a)).

(** The integer tensor of dimension [d] checked entry by entry, over
    every multi-index [idx] of its shape and every two positions [a],
    [b]: the entry is the sign of [idx] when [idx] is a permutation and 0
    otherwise; exchanging the components at two different positions
    negates the entry; an index repeated at two different positions
    makes the entry 0. *)
Definition levi_civita_check (d : nat) : bool :=
  let epsilon := levi_civita_array int_dtype perm_sign d in
  let positions := seq 0 d in
  forallb
    (fun idx =>
       let x := item epsilon idx in
       (if is_permutation idx then Z.eqb x (perm_sign idx) else Z.eqb x 0)
       && forallb
            (fun a =>
               forallb
                 (fun b =>
                    (a =? b)
                    || (Z.eqb (item epsilon (swap a b idx)) (- x)
                        && (negb (nth a idx 0 =? nth b idx 0) || Z.eqb x 0)))
                 positions)
            positions)
    (indices (repeat d d)).


(** ** A concrete environment *)

(** The number of elements of an array of shape [shp]. *)
Definition size_N (shp : list nat) : N :=
  fold_right N.mul 1%N (map N.of_nat shp).

(** NumPy 2 on a 64-bit machine with room for 2^31 elements: at most 64
    axes, at most 2^63 - 1 bytes of 8-byte elements, and [MemoryError]
    past the room there is. *)
Definition numpy_alloc_error (shp : list nat) : option exn :=
  if 64 <? length shp then Some ValueError_zeros
  else if (2 ^ 60 <=? size_N shp)%N then Some ValueError_zeros
  else if (2 ^ 31 <? size_N shp)%N then Some MemoryError
  else None.

Definition numpy_env : environment.
Proof.
  refine (Environment numpy_alloc_error _).
  intros shp Hlen Hsize. unfold numpy_alloc_error.
  assert (HN : size_N shp = N.of_nat (prod shp)).
  { unfold size_N. clear. induction shp as [|n shp IH]; simpl.
    - reflexivity.
    - rewrite IH, Nat2N.inj_mul. reflexivity. }
  assert (Hle : (size_N shp <= 256)%N).
  { rewrite HN. change 256%N with (N.of_nat 256). lia. }
  destruct (Nat.ltb_spec 64 (length shp)); [lia|].
  destruct (N.leb_spec (2 ^ 60) (size_N shp)); [lia|].
  destruct (N.ltb_spec (2 ^ 31) (size_N shp)); [lia|].
  reflexivity.
Defined.

(** ** Concrete batches *)

(** The unit vectors of the scenario [u = [1,0,0]], [v = [0,1,0]], as
    batches of one slot. *)
Definition unit_x : ndarray int_dtype :=
  @NDArray int_dtype [3; 1] [1; 0; 0]%Z.
Definition unit_y : ndarray int_dtype :=
  @NDArray int_dtype [3; 1] [0; 1; 0]%Z.
Definition unit_z : ndarray int_dtype :=
  @NDArray int_dtype [3; 1] [0; 0; 1]%Z.

(** Two slots of vectors of dimension 3:
    [(1,2,3)], [(4,5,6)] and [(7,8,9)], [(1,0,2)], slot by slot. *)
Definition vectors_a : ndarray int_dtype :=
  @NDArray int_dtype [3; 2] [1; 4;  2; 5;  3; 6]%Z.
Definition vectors_b : ndarray int_dtype :=
  @NDArray int_dtype [3; 2] [7; 1;  8; 0;  9; 2]%Z.

(** Two vectors of dimension 2, in one slot each. *)
Definition plane_u : ndarray int_dtype :=
  @NDArray int_dtype [2; 1] [1; 0]%Z.
Definition plane_v : ndarray int_dtype :=
  @NDArray int_dtype [2; 1] [0; 1]%Z.

(** A batch of five 3x3 matrices, [matrices[i,j,k] = 15*i + 5*j + k + 1]. *)
Definition matrices_335 : ndarray int_dtype :=
  @NDArray int_dtype [3; 3; 5] (map Z.of_nat (seq 1 45)).

(** Batches of four vectors and of one vector of dimension 3. *)
Definition vectors_34 : ndarray int_dtype :=
  @NDArray int_dtype [3; 4] (map Z.of_nat (seq 1 12)).
Definition vectors_31 : ndarray int_dtype :=
  @NDArray int_dtype [3; 1] [1; 2; 3]%Z.

(** Two slots of 2x2 matrices and of 2x3 matrices, with vectors to
    match. *)
Definition matrices_222 : ndarray int_dtype :=
  @NDArray int_dtype [2; 2; 2] [1; 5;  2; 6;  3; 7;  4; 8]%Z.
Definition matrices_222' : ndarray int_dtype :=
  @NDArray int_dtype [2; 2; 2] [0; 1;  1; 0;  2; 1;  1; 3]%Z.
Definition vectors_22 : ndarray int_dtype :=
  @NDArray int_dtype [2; 2] [1; 2;  3; 4]%Z.
Definition vectors_22' : ndarray int_dtype :=
  @NDArray int_dtype [2; 2] [0; 1;  1; 0]%Z.
(** [2 * vectors_22 + 3 * vectors_22']. *)
Definition vectors_22_combined : ndarray int_dtype :=
  @NDArray int_dtype [2; 2] [2; 7;  9; 8]%Z.
Definition matrices_232 : ndarray int_dtype :=
  @NDArray int_dtype [2; 3; 2] (map Z.of_nat (seq 1 12)).

(** An array without axes, and empty batches. *)
Definition scalar_5 : ndarray int_dtype := @NDArray int_dtype [] [5%Z].
Definition matrices_330 : ndarray int_dtype :=
  @NDArray int_dtype [3; 3; 0] [].
Definition vectors_30 : ndarray int_dtype :=
  @NDArray int_dtype [3; 0] [].

(** Two slots of the 2x2 identity matrix. *)
Definition eye_222 : ndarray int_dtype :=
  @NDArray int_dtype [2; 2; 2] [1; 1;  0; 0;  0; 0;  1; 1]%Z.


(** Two slots of 3x2 matrices. *)
Definition matrices_322 : ndarray int_dtype :=
  @NDArray int_dtype [3; 2; 2] (map Z.of_nat (seq 1 12)).


(** An empty batch of vectors of 65 components. *)
Definition vectors_65_0 : ndarray int_dtype := @NDArray int_dtype [65; 0] [].

Definition vectors_a_other : ndarray int_dtype :=
  @NDArray int_dtype [3; 2] [1; 0;  2; 0;  3; 0]%Z.
Definition vectors_b_other : ndarray int_dtype :=
  @NDArray int_dtype [3; 2] [7; 5;  8; 5;  9; 5]%Z.

(** * Index arithmetic *)

Unset Implicit Arguments.

Lemma length_flat_map_uniform (A B : Type) (f : A -> list B) (m : nat)
      (l : list A) :
  (forall a, In a l -> length (f a) = m) ->
  length (flat_map f l) = length l * m.
Proof.
  induction l as [|a l IH]; intros Hlen; simpl.
  - reflexivity.
  - rewrite length_app, Hlen by (left; reflexivity).
    rewrite IH by (intros; apply Hlen; right; assumption).
    reflexivity.
Qed.

Lemma nth_flat_map_uniform (A B : Type) (f : A -> list B) (m : nat)
      (l : list A) (da : A) (db : B) :
  (forall a, In a l -> length (f a) = m) ->
  forall i j, i < length l -> j < m ->
  nth (i * m + j) (flat_map f l) db = nth j (f (nth i l da)) db.
Proof.
  induction l as [|a l IH]; intros Hlen i j Hi Hj; simpl in *.
  - lia.
  - assert (Ha : length (f a) = m) by (apply Hlen; left; reflexivity).
    destruct i as [|i].
    + simpl. apply app_nth1. lia.
    + rewrite app_nth2 by (rewrite Ha; simpl; lia).
      rewrite Ha.
      replace (S i * m + j - m) with (i * m + j) by (simpl; lia).
      apply IH; [intros; apply Hlen; right; assumption | lia | assumption].
Qed.

Lemma length_indices (sizes : list nat) :
  length (indices sizes) = prod sizes.
Proof.
  induction sizes as [|n rest IH]; simpl.
  - reflexivity.
  - rewrite length_flat_map_uniform with (m := prod rest).
    + rewrite length_seq. reflexivity.
    + intros i _. rewrite length_map. exact IH.
Qed.

Lemma ravel_lt (shp idx : list nat) :
  in_bounds idx shp -> ravel shp idx < prod shp.
Proof.
  intros H. induction H as [|i n idx shp Hi _ IH]; simpl.
  - lia.
  - nia.
Qed.

Lemma nth_indices (shp idx d : list nat) :
  in_bounds idx shp -> nth (ravel shp idx) (indices shp) d = idx.
Proof.
  intros H. revert d. induction H as [|i n idx shp Hi Hb IH]; intros d; simpl.
  - reflexivity.
  - rewrite nth_flat_map_uniform with (m := prod shp) (da := 0).
    + rewrite seq_nth by assumption. simpl.
      rewrite nth_indep with (d' := i :: d)
        by (rewrite length_map, length_indices; apply ravel_lt; assumption).
      rewrite map_nth. rewrite IH. reflexivity.
    + intros a _. rewrite length_map. apply length_indices.
    + rewrite length_seq. assumption.
    + apply ravel_lt. assumption.
Qed.

Lemma in_indices (shp idx : list nat) :
  In idx (indices shp) -> in_bounds idx shp.
Proof.
  revert idx. induction shp as [|n rest IH]; intros idx; simpl.
  - intros [<-|[]]. constructor.
  - rewrite in_flat_map. intros [i [Hi Hin]].
    apply in_map_iff in Hin. destruct Hin as [idx' [<- Hin]].
    apply in_seq in Hi. constructor; [lia | apply IH; assumption].
Qed.

Lemma indices_in (shp idx : list nat) :
  in_bounds idx shp -> In idx (indices shp).
Proof.
  intros H. rewrite <- (nth_indices shp idx [] H).
  apply nth_In. rewrite length_indices. apply ravel_lt. assumption.
Qed.

Lemma indices_empty (shp : list nat) : prod shp = 0 -> indices shp = [].
Proof.
  intros H. apply length_zero_iff_nil. rewrite length_indices. exact H.
Qed.

Lemma indices_one (n : nat) : indices [n] = map (fun j => [j]) (seq 0 n).
Proof.
  simpl. induction (seq 0 n) as [|j l IH]; simpl; [reflexivity|].
  rewrite IH. reflexivity.
Qed.

Lemma in_bounds_2 (i k d n : nat) : i < d -> k < n -> in_bounds [i; k] [d; n].
Proof. intros; repeat constructor; assumption. Qed.

Lemma in_bounds_3 (i j k p q n : nat) :
  i < p -> j < q -> k < n -> in_bounds [i; j; k] [p; q; n].
Proof. intros; repeat constructor; assumption. Qed.

Lemma in_bounds_2_inv (idx : list nat) (d n : nat) :
  in_bounds idx [d; n] -> exists i k, idx = [i; k] /\ i < d /\ k < n.
Proof.
  intros H. inversion H as [|i ? idx1 ? Hi H1]; subst.
  inversion H1 as [|k ? idx2 ? Hk H2]; subst.
  inversion H2; subst. exists i, k. auto.
Qed.

Lemma in_bounds_3_inv (idx : list nat) (p q n : nat) :
  in_bounds idx [p; q; n] ->
  exists i j k, idx = [i; j; k] /\ i < p /\ j < q /\ k < n.
Proof.
  intros H. inversion H as [|i ? idx1 ? Hi H1]; subst.
  apply in_bounds_2_inv in H1. destruct H1 as [j [k [-> [Hj Hk]]]].
  exists i, j, k. auto.
Qed.

(** An index below the extent of its axis is read as it is: broadcasting
    only redirects the reads along an axis of extent 1, whose one index
    is 0. *)
Lemma broadcast_index (n i : nat) : i < n -> (if n =? 1 then 0 else i) = i.
Proof.
  intros H. destruct (Nat.eqb_spec n 1); [lia | reflexivity].
Qed.

Lemma broadcast_dim_same (n : nat) : broadcast_dim n n = Some n.
Proof.
  unfold broadcast_dim. rewrite Nat.eqb_refl.
  destruct (n =? 1); reflexivity.
Qed.

Lemma broadcast_dim_agree (a b : nat) :
  agree a b <-> exists n, broadcast_dim a b = Some n.
Proof.
  unfold agree, broadcast_dim.
  destruct (Nat.eqb_spec a 1), (Nat.eqb_spec b 1), (Nat.eqb_spec a b);
    split; intros H; eauto; try lia.
  destruct H as [m H]. discriminate.
Qed.

Lemma broadcast_dim_disagree (a b : nat) :
  ~ agree a b <-> broadcast_dim a b = None.
Proof.
  rewrite broadcast_dim_agree. destruct (broadcast_dim a b) as [n|].
  - split; [intros H; exfalso; apply H; eauto | discriminate].
  - split; [reflexivity | intros _ [n H]; discriminate].
Qed.

(** * The tuples of [itertools.permutations] *)

Lemma selections_spec (A : Type) (l : list A) (x : A) (rest : list A) :
  In (x, rest) (selections l) ->
  In x l /\ incl rest l /\ (NoDup l -> ~ In x rest /\ NoDup rest).
Proof.
  revert x rest. induction l as [|y l IH]; intros x rest; simpl.
  - intros [].
  - intros [E|Hin].
    + inversion E; subst. split; [left; reflexivity|].
      split; [apply incl_tl, incl_refl|].
      intros Hnd. inversion Hnd; subst. split; assumption.
    + apply in_map_iff in Hin. destruct Hin as [[z rest'] [E Hin]].
      inversion E; subst. destruct (IH x rest' Hin) as [Hx [Hincl Hnd]].
      split; [right; exact Hx|].
      split; [apply incl_cons; [left; reflexivity | apply incl_tl, Hincl]|].
      intros Hnd'. inversion Hnd' as [|? ? Hy Hl]; subst.
      destruct (Hnd Hl) as [Hx' Hrest]. split.
      * intros [->|H]; [apply Hy, Hx | apply Hx', H].
      * constructor; [intros H; apply Hy, Hincl, H | exact Hrest].
Qed.

Lemma permutations_spec (A : Type) (r : nat) (l t : list A) :
  In t (permutations l r) ->
  length t = r /\ incl t l /\ (NoDup l -> NoDup t).
Proof.
  revert l t. induction r as [|r IH]; intros l t; simpl.
  - intros [<-|[]]. split; [reflexivity|].
    split; [apply incl_nil_l | constructor].
  - rewrite in_flat_map. intros [[x rest] [Hsel Hin]].
    apply in_map_iff in Hin. destruct Hin as [t' [<- Hin]].
    destruct (selections_spec A l x rest Hsel) as [Hx [Hincl Hnd]].
    destruct (IH rest t' Hin) as [Hlen [Hincl' Hnd']].
    split; [simpl; congruence|].
    split.
    + apply incl_cons; [exact Hx | exact (incl_tran Hincl' Hincl)].
    + intros Hl. destruct (Hnd Hl) as [Hx' Hrest].
      constructor; [intros H; apply Hx', Hincl', H | apply Hnd', Hrest].
Qed.

(** The tuples [permutations(range(dim), dim)] yields are multi-indices
    within the shape [(dim,)*dim]: the assignments of
    [levi_civita_tensor] never leave the array. *)
Lemma permutations_in_bounds (dim : nat) (t : list nat) :
  In t (permutations (range dim) dim) -> in_bounds t (repeat dim dim).
Proof.
  intros H. destruct (permutations_spec nat dim (range dim) t H)
    as [Hlen [Hincl _]].
  assert (Hall : Forall (fun x => x < dim) t).
  { apply Forall_forall. intros x Hx. apply Hincl, in_seq in Hx. lia. }
  clear H Hincl. revert Hlen. generalize dim at 1 3 as m.
  induction Hall as [|x t Hx _ IH]; intros [|m] Hlen; try discriminate.
  - constructor.
  - constructor; [exact Hx | apply IH; simpl in Hlen; congruence].
Qed.

(** They are permutations of [0..dim-1]. *)
Lemma permutations_are_permutations (dim : nat) (t : list nat) :
  In t (permutations (range dim) dim) -> is_permutation t = true.
Proof.
  intros H. destruct (permutations_spec nat dim (range dim) t H)
    as [Hlen [Hincl Hnd]].
  specialize (Hnd (seq_NoDup dim 0)).
  unfold is_permutation. rewrite Hlen.
  apply forallb_forall. intros i Hi.
  apply existsb_exists. exists i. split; [|apply Nat.eqb_refl].
  assert (Hle : length (range dim) <= length t)
    by (unfold range; rewrite length_seq, Hlen; constructor).
  exact (@NoDup_length_incl nat t (range dim) Hnd Hle Hincl i Hi).
Qed.

(** * Sums and array reads *)

Section Algebra.

Variable K : dtype.

Variable Env : environment.

Add Ring dtype_ring_inst : (dtype_ring K).

Local Notation "x + y" := (add K x y).
Local Notation "x * y" := (mul K x y).
Local Notation "- x" := (opp K x).
Local Notation "0" := (zero K).
Local Notation "1" := (one K).

Lemma sum_list_ext (A : Type) (f g : A -> K) (l : list A) :
  (forall a, In a l -> f a = g a) ->
  sum_list K (map f l) = sum_list K (map g l).
Proof.
  intros H. rewrite (map_ext_in f g l H). reflexivity.
Qed.

Lemma sum_range_ext (n : nat) (f g : nat -> K) :
  (forall j, (j < n)%nat -> f j = g j) -> sum_range K n f = sum_range K n g.
Proof.
  intros H. apply sum_list_ext. intros j Hj. apply in_seq in Hj.
  apply H. lia.
Qed.

Lemma sum_list_zero (A : Type) (l : list A) :
  sum_list K (map (fun _ => 0) l) = 0.
Proof.
  unfold sum_list. induction l as [|a l IH]; simpl; [reflexivity|].
  rewrite IH. ring.
Qed.

Lemma sum_list_add (A : Type) (f g : A -> K) (l : list A) :
  sum_list K (map (fun a => f a + g a) l)
  = sum_list K (map f l) + sum_list K (map g l).
Proof.
  unfold sum_list. induction l as [|a l IH]; simpl; [ring|].
  rewrite IH. ring.
Qed.

Lemma sum_list_mul_l (A : Type) (c : K) (f : A -> K) (l : list A) :
  c * sum_list K (map f l) = sum_list K (map (fun a => c * f a) l).
Proof.
  unfold sum_list. induction l as [|a l IH]; simpl; [ring|].
  rewrite <- IH. ring.
Qed.

Lemma sum_list_mul_r (A : Type) (c : K) (f : A -> K) (l : list A) :
  sum_list K (map f l) * c = sum_list K (map (fun a => f a * c) l).
Proof.
  unfold sum_list. induction l as [|a l IH]; simpl; [ring|].
  rewrite <- IH. ring.
Qed.

Lemma sum_list_opp (A : Type) (f : A -> K) (l : list A) :
  - sum_list K (map f l) = sum_list K (map (fun a => - f a) l).
Proof.
  unfold sum_list. induction l as [|a l IH]; simpl; [ring|].
  rewrite <- IH. ring.
Qed.

(** The order of two nested sums is immaterial. *)
Lemma sum_list_swap (A B : Type) (f : A -> B -> K) (la : list A)
      (lb : list B) :
  sum_list K (map (fun a => sum_list K (map (fun b => f a b) lb)) la)
  = sum_list K (map (fun b => sum_list K (map (fun a => f a b) la)) lb).
Proof.
  induction la as [|a la IH]; simpl.
  - symmetry. apply sum_list_zero.
  - rewrite IH. symmetry. apply (sum_list_add B (fun b => f a b)).
Qed.

Lemma sum_range_swap (n m : nat) (f : nat -> nat -> K) :
  sum_range K n (fun i => sum_range K m (fun j => f i j))
  = sum_range K m (fun j => sum_range K n (fun i => f i j)).
Proof. apply sum_list_swap. Qed.

(** A sum over the multi-indices of one axis is a sum over its range. *)
Lemma sum_indices_one (n : nat) (f : list nat -> K) :
  sum_list K (map f (indices [n])) = sum_range K n (fun j => f [j]).
Proof.
  rewrite indices_one, map_map. reflexivity.
Qed.

(** Reading an array that was filled from a function of the index. *)
Lemma item_tabulate (shp idx : list nat) (f : list nat -> K) :
  in_bounds idx shp ->
  item (NDArray shp (map f (indices shp))) idx = f idx.
Proof.
  intros H. unfold item. simpl.
  rewrite nth_indep with (d' := f [])
    by (rewrite length_map, length_indices; apply ravel_lt; assumption).
  rewrite map_nth, nth_indices by assumption. reflexivity.
Qed.

Lemma well_formed_tabulate (shp : list nat) (f : list nat -> K) :
  well_formed (NDArray shp (map f (indices shp))).
Proof.
  unfold well_formed. simpl. rewrite length_map. apply length_indices.
Qed.

Lemma item_contract (terms : list (list ascii)) (out sums : list ascii)
      (out_sizes sum_sizes : list nat) (ops : list (ndarray K))
      (idx : list nat) :
  in_bounds idx out_sizes ->
  item (contract terms out sums out_sizes sum_sizes ops) idx
  = sum_list K
      (map (fun sidx =>
              term_product (combine out idx ++ combine sums sidx) terms ops)
           (indices sum_sizes)).
Proof.
  intros H. unfold contract. rewrite item_tabulate by assumption.
  reflexivity.
Qed.

Lemma well_formed_contract (terms : list (list ascii)) (out sums : list ascii)
      (out_sizes sum_sizes : list nat) (ops : list (ndarray K)) :
  well_formed (contract terms out sums out_sizes sum_sizes ops).
Proof. apply well_formed_tabulate. Qed.

Lemma item_neg (a : ndarray K) (idx : list nat) :
  item (neg a) idx = - item a idx.
Proof.
  unfold item, neg. simpl.
  transitivity (nth (ravel (shape a) idx) (map (opp K) (data a)) (- 0)).
  - f_equal. ring.
  - apply map_nth.
Qed.

Lemma well_formed_neg (a : ndarray K) : well_formed a -> well_formed (neg a).
Proof.
  unfold well_formed, neg. simpl. rewrite length_map. trivial.
Qed.

(** *** Every offset is the offset of a multi-index *)

Lemma map_flat_map (A B C : Type) (f : B -> C) (g : A -> list B)
      (l : list A) :
  map f (flat_map g l) = flat_map (fun a => map f (g a)) l.
Proof.
  induction l as [|a l IH]; simpl; [reflexivity|].
  rewrite map_app, IH. reflexivity.
Qed.

Lemma flat_map_ext_in (A B : Type) (f g : A -> list B) (l : list A) :
  (forall a, In a l -> f a = g a) -> flat_map f l = flat_map g l.
Proof.
  induction l as [|a l IH]; intros H; simpl; [reflexivity|].
  rewrite H by (left; reflexivity).
  rewrite IH by (intros; apply H; right; assumption).
  reflexivity.
Qed.

Lemma map_offset_seq (b m : nat) :
  map (fun x => (b + x)%nat) (seq 0 m) = seq b m.
Proof.
  revert b. induction m as [|m IH]; intros b; [reflexivity|].
  rewrite !seq_S, map_app, IH. reflexivity.
Qed.

Lemma flat_map_blocks (m n a : nat) :
  flat_map (fun i => map (fun x => (i * m + x)%nat) (seq 0 m)) (seq a n)
  = seq (a * m) (n * m).
Proof.
  revert a. induction n as [|n IH]; intros a; simpl; [reflexivity|].
  rewrite map_offset_seq, IH, seq_app. f_equal. f_equal. simpl. lia.
Qed.

Lemma map_ravel_indices (shp : list nat) :
  map (ravel shp) (indices shp) = seq 0 (prod shp).
Proof.
  induction shp as [|n rest IH]; [reflexivity|].
  cbn [indices]. rewrite map_flat_map.
  rewrite flat_map_ext_in
    with (g := fun i => map (fun x => (i * prod rest + x)%nat)
                            (seq 0 (prod rest))).
  - rewrite flat_map_blocks. reflexivity.
  - intros i _. rewrite map_map. rewrite <- IH, map_map. reflexivity.
Qed.

Lemma unravel (shp : list nat) (n : nat) :
  (n < prod shp)%nat ->
  exists idx, in_bounds idx shp /\ ravel shp idx = n.
Proof.
  intros H. exists (nth n (indices shp) []). split.
  - apply in_indices, nth_In. rewrite length_indices. assumption.
  - rewrite <- (map_nth (ravel shp)), map_ravel_indices.
    rewrite nth_indep with (d' := 0%nat) by (rewrite length_seq; assumption).
    apply seq_nth. assumption.
Qed.

(** Two arrays of one shape that hold the same element at every
    multi-index are the same array. *)
Lemma ndarray_ext (a b : ndarray K) :
  shape a = shape b -> well_formed a -> well_formed b ->
  (forall idx, in_bounds idx (shape a) -> item a idx = item b idx) ->
  a = b.
Proof.
  destruct a as [sa da], b as [sb db]. unfold well_formed, item. simpl.
  intros <- Ha Hb H. f_equal.
  apply nth_ext with (d := 0) (d' := 0); [congruence|].
  intros n Hn. rewrite Ha in Hn.
  destruct (unravel sa n Hn) as [idx [Hidx <-]]. apply H. assumption.
Qed.

(** * The contractions of the three kernels *)

Lemma einsum_matvec (p q n q' n' : nat) (dM dv : list K) :
  let M := NDArray [p; q; n] dM in
  let v := NDArray [q'; n'] dv in
  _batch_matvec M v
  = match broadcast_dim n n', broadcast_dim q q' with
    | Some N, Some J =>
        Ok (contract [["i"; "j"; "k"]; ["j"; "k"]]%char
                     ["i"; "k"]%char ["j"]%char [p; N] [J] [M; v])
    | _, _ => Raise (ValueError_broadcast [[p; q; n]; [q'; n']])
    end.
Proof.
  unfold _batch_matvec, einsum. cbn.
  destruct (broadcast_dim n n'), (broadcast_dim q q'); reflexivity.
Qed.

Lemma einsum_matmul (p q n q' r n' : nat) (dA dB : list K) :
  let A := NDArray [p; q; n] dA in
  let B := NDArray [q'; r; n'] dB in
  _batch_matmul A B
  = match broadcast_dim n n', broadcast_dim q q' with
    | Some N, Some J =>
        Ok (contract [["i"; "j"; "k"]; ["j"; "l"; "k"]]%char
                     ["i"; "l"; "k"]%char ["j"]%char [p; r; N] [J] [A; B])
    | _, _ => Raise (ValueError_broadcast [[p; q; n]; [q'; r; n']])
    end.
Proof.
  unfold _batch_matmul, einsum. cbn.
  destruct (broadcast_dim n n'), (broadcast_dim q q'); reflexivity.
Qed.

Lemma matvec_general (p q n : nat) (M v : ndarray K) :
  shape M = [p; q; n] -> shape v = [q; n] ->
  exists out,
    _batch_matvec M v = Ok out /\ shape out = [p; n] /\ well_formed out /\
    forall i k, (i < p)%nat -> (k < n)%nat ->
      item out [i; k]
      = sum_range K q (fun j => item M [i; j; k] * item v [j; k]).
Proof.
  destruct M as [sM dM], v as [sv dv]. simpl. intros -> ->.
  rewrite einsum_matvec, !broadcast_dim_same.
  eexists. split; [reflexivity|]. split; [reflexivity|].
  split; [apply well_formed_contract|].
  intros i k Hi Hk. rewrite item_contract by (apply in_bounds_2; assumption).
  rewrite sum_indices_one. apply sum_range_ext. intros j Hj.
  cbn. rewrite !broadcast_index by assumption. ring.
Qed.

Lemma matmul_general (p q r n : nat) (A B : ndarray K) :
  shape A = [p; q; n] -> shape B = [q; r; n] ->
  exists out,
    _batch_matmul A B = Ok out /\ shape out = [p; r; n] /\ well_formed out /\
    forall i l k, (i < p)%nat -> (l < r)%nat -> (k < n)%nat ->
      item out [i; l; k]
      = sum_range K q (fun j => item A [i; j; k] * item B [j; l; k]).
Proof.
  destruct A as [sA dA], B as [sB dB]. simpl. intros -> ->.
  rewrite einsum_matmul, !broadcast_dim_same.
  eexists. split; [reflexivity|]. split; [reflexivity|].
  split; [apply well_formed_contract|].
  intros i l k Hi Hl Hk.
  rewrite item_contract by (apply in_bounds_3; assumption).
  rewrite sum_indices_one. apply sum_range_ext. intros j Hj.
  cbn. rewrite !broadcast_index by assumption. ring.
Qed.

Lemma matvec_matmul_general (p q r n : nat) (A B v : ndarray K) :
  shape A = [p; q; n] -> shape B = [q; r; n] -> shape v = [r; n] ->
  exists out,
    result_bind (_batch_matmul A B) (fun AB => _batch_matvec AB v) = Ok out /\
    result_bind (_batch_matvec B v) (fun Bv => _batch_matvec A Bv) = Ok out.
Proof.
  intros HA HB Hv.
  destruct (matmul_general p q r n A B HA HB) as [AB [-> [HsAB [_ HAB]]]].
  destruct (matvec_general q r n B v HB Hv) as [Bv [-> [HsBv [_ HBv]]]].
  destruct (matvec_general p r n AB v HsAB Hv) as [out1 [H1 [Hs1 [Hw1 Hi1]]]].
  destruct (matvec_general p q n A Bv HA HsBv) as [out2 [H2 [Hs2 [Hw2 Hi2]]]].
  simpl. exists out1. split; [assumption|]. rewrite H2. f_equal. symmetry.
  apply ndarray_ext; [congruence | assumption | assumption |].
  rewrite Hs1. intros idx Hidx.
  apply in_bounds_2_inv in Hidx. destruct Hidx as [i [k [-> [Hi Hk]]]].
  rewrite Hi1, Hi2 by assumption.
  transitivity
    (sum_range K r (fun l => sum_range K q (fun j =>
       item A [i; j; k] * item B [j; l; k] * item v [l; k]))).
  { apply sum_range_ext. intros l Hl. rewrite HAB by assumption.
    unfold sum_range. rewrite sum_list_mul_r. reflexivity. }
  rewrite sum_range_swap. apply sum_range_ext. intros j Hj.
  rewrite HBv by assumption. unfold sum_range. rewrite sum_list_mul_l.
  apply sum_list_ext. intros l _. ring.
Qed.

(** * The Levi-Civita tensor and its cache *)

Lemma length_list_set (A : Type) (l : list A) (n : nat) (x : A) :
  length (list_set l n x) = length l.
Proof.
  revert n. induction l as [|y l IH]; intros [|n]; simpl; auto.
Qed.

Lemma list_set_map (A B : Type) (f : A -> B) (l : list A) (n : nat) (x : A) :
  list_set (map f l) n (f x) = map f (list_set l n x).
Proof.
  revert n. induction l as [|y l IH]; intros [|n]; simpl; auto.
  rewrite IH. reflexivity.
Qed.

Lemma shape_setitems (A : Type) (g : A -> list nat) (h : A -> K)
      (l : list A) (a : ndarray K) :
  shape (fold_left (fun e t => setitem e (g t) (h t)) l a) = shape a.
Proof.
  revert a. induction l as [|t l IH]; intros a; simpl; [reflexivity|].
  rewrite IH. reflexivity.
Qed.

Lemma well_formed_setitems (A : Type) (g : A -> list nat) (h : A -> K)
      (l : list A) (a : ndarray K) :
  well_formed a ->
  well_formed (fold_left (fun e t => setitem e (g t) (h t)) l a).
Proof.
  revert a. induction l as [|t l IH]; intros a Ha; simpl; [assumption|].
  apply IH. unfold well_formed, setitem in *. simpl.
  rewrite length_list_set. assumption.
Qed.

Lemma shape_levi_civita (perm_parity : list nat -> Z) (dim : nat) :
  shape (levi_civita_array K perm_parity dim) = repeat dim dim.
Proof.
  unfold levi_civita_array, fill_parities.
  rewrite (shape_setitems _ (fun t => t) (fun t => of_int K (perm_parity t))).
  reflexivity.
Qed.

Lemma well_formed_levi_civita (perm_parity : list nat -> Z) (dim : nat) :
  well_formed (levi_civita_array K perm_parity dim).
Proof.
  unfold levi_civita_array, fill_parities.
  apply (well_formed_setitems _ (fun t => t)
           (fun t => of_int K (perm_parity t))).
  unfold well_formed, zeros. simpl. apply repeat_length.
Qed.

(** The tensor depends on the parity function only through its values
    on the tuples [itertools.permutations] yields. *)
Lemma levi_civita_ext (pp pp' : list nat -> Z) (dim : nat) :
  (forall t, In t (permutations (range dim) dim) -> pp t = pp' t) ->
  levi_civita_array K pp dim = levi_civita_array K pp' dim.
Proof.
  unfold levi_civita_array, fill_parities.
  generalize (zeros K (repeat dim dim)).
  induction (permutations (range dim) dim) as [|t l IH]; intros a H; simpl.
  - reflexivity.
  - rewrite H by (left; reflexivity).
    apply IH. intros; apply H; right; assumption.
Qed.

Lemma levi_civita_contract (pp : list nat -> Z) (dim : nat) :
  perm_parity_contract pp ->
  levi_civita_array K pp dim = levi_civita_array K perm_sign dim.
Proof.
  intros Hpp. apply levi_civita_ext. intros t Ht.
  apply Hpp. exact (permutations_are_permutations dim t Ht).
Qed.

(** The tensor of dimension 3, entry by entry. *)
Lemma levi_civita_3 (pp : list nat -> Z) :
  perm_parity_contract pp ->
  levi_civita_array K pp 3
  = NDArray [3; 3; 3]
      [0; 0; 0;   0; 0; 1;   0; - (1); 0;
       0; 0; - (1);   0; 0; 0;   1; 0; 0;
       0; 1; 0;   - (1); 0; 0;   0; 0; 0].
Proof.
  intros Hpp. rewrite (levi_civita_contract pp 3 Hpp).
  reflexivity.
Qed.

(** What the body does: the exception of the environment for a tensor
    it cannot allocate, the filled tensor otherwise. *)
Lemma body_outcome (pp : list nat -> Z) (dim : nat) :
  levi_civita_tensor_body K Env pp dim
  = match alloc_error Env (repeat dim dim) with
    | Some e => Raise e
    | None => Ok (levi_civita_array K pp dim)
    end.
Proof.
  unfold levi_civita_tensor_body, np_zeros, levi_civita_array.
  destruct (alloc_error Env (repeat dim dim)); reflexivity.
Qed.

(** Up to dimension 4 the tensor has at most 4 axes and 256 elements:
    every environment allocates it. *)
Lemma alloc_tensor_small (dim : nat) :
  (dim <= 4)%nat -> alloc_error Env (repeat dim dim) = None.
Proof.
  intros H. apply alloc_small.
  - rewrite repeat_length. exact H.
  - destruct dim as [|[|[|[|[|dim]]]]]; simpl; lia.
Qed.

Lemma alloc_3 : alloc_error Env [3; 3; 3] = None.
Proof. apply (alloc_tensor_small 3). lia. Qed.

Lemma body_small (pp : list nat -> Z) (dim : nat) :
  (dim <= 4)%nat ->
  levi_civita_tensor_body K Env pp dim = Ok (levi_civita_array K pp dim).
Proof.
  intros H. rewrite body_outcome, (alloc_tensor_small dim H). reflexivity.
Qed.

Lemma body_returns (pp : list nat -> Z) (dim : nat) (eps : ndarray K) :
  levi_civita_tensor_body K Env pp dim = Ok eps ->
  alloc_error Env (repeat dim dim) = None /\
  eps = levi_civita_array K pp dim.
Proof.
  rewrite body_outcome.
  destruct (alloc_error Env (repeat dim dim)); [discriminate|].
  intros H. inversion H. auto.
Qed.

Lemma coherent_empty (pp : list nat -> Z) : coherent Env pp (empty_cache K).
Proof. exact I. Qed.

Lemma coherent_call (pp : list nat -> Z) (dim : nat) (c : lru_cache K) :
  coherent Env pp c -> coherent Env pp (snd (levi_civita_tensor Env pp dim c)).
Proof.
  unfold coherent, levi_civita_tensor. intros H.
  destruct (levi_civita_tensor_body K Env pp dim) as [eps'|e] eqn:Hbody;
    destruct (entry c) as [[key eps]|]; simpl;
    try (destruct (key =? dim); simpl); auto.
Qed.

Lemma coherent_cache_after (pp : list nat -> Z) (dims : list nat)
      (c : lru_cache K) :
  coherent Env pp c -> coherent Env pp (cache_after Env pp dims c).
Proof.
  revert c. induction dims as [|d dims IH]; intros c Hc; simpl.
  - assumption.
  - apply IH, coherent_call, Hc.
Qed.

(** A call on a coherent cache has the outcome of the body, hit or
    miss. *)
Lemma levi_civita_tensor_outcome (pp : list nat -> Z) (dim : nat)
      (c : lru_cache K) :
  coherent Env pp c ->
  fst (levi_civita_tensor Env pp dim c) = levi_civita_tensor_body K Env pp dim.
Proof.
  unfold coherent, levi_civita_tensor.
  destruct (entry c) as [[key eps]|]; simpl.
  - destruct (Nat.eqb_spec key dim); simpl.
    + intros H. subst. symmetry. exact H.
    + intros _. destruct (levi_civita_tensor_body K Env pp dim); reflexivity.
  - intros _. destruct (levi_civita_tensor_body K Env pp dim); reflexivity.
Qed.

(** When the environment can allocate the tensor, the call returns
    it. *)
Lemma levi_civita_tensor_value (pp : list nat -> Z) (dim : nat)
      (c : lru_cache K) :
  coherent Env pp c -> alloc_error Env (repeat dim dim) = None ->
  fst (levi_civita_tensor Env pp dim c) = Ok (levi_civita_array K pp dim).
Proof.
  intros Hc Ha. rewrite (levi_civita_tensor_outcome pp dim c Hc).
  rewrite body_outcome, Ha. reflexivity.
Qed.

Lemma batch_cross_outcome (pp : list nat -> Z) (u v : ndarray K)
      (c : lru_cache K) (dim : nat) (rest : list nat) :
  coherent Env pp c -> shape u = dim :: rest ->
  fst (_batch_cross Env pp u v c)
  = result_bind (levi_civita_tensor_body K Env pp dim)
      (fun epsilon => einsum "ijk,jl,kl->il" [epsilon; u; v]).
Proof.
  intros Hc Hu. unfold _batch_cross. rewrite Hu.
  pose proof (levi_civita_tensor_outcome pp dim c Hc) as Hv.
  destruct (levi_civita_tensor Env pp dim c) as [r c']. simpl in *.
  rewrite Hv. reflexivity.
Qed.

Lemma batch_cross_einsum (pp : list nat -> Z) (u v : ndarray K)
      (c : lru_cache K) (dim : nat) (rest : list nat) :
  coherent Env pp c -> shape u = dim :: rest ->
  alloc_error Env (repeat dim dim) = None ->
  fst (_batch_cross Env pp u v c)
  = einsum "ijk,jl,kl->il" [levi_civita_array K pp dim; u; v].
Proof.
  intros Hc Hu Ha. rewrite (batch_cross_outcome pp u v c dim rest Hc Hu).
  rewrite body_outcome, Ha. reflexivity.
Qed.

Lemma einsum_cross_rank (eps u v : ndarray K) :
  ndim eps <> 3%nat ->
  einsum "ijk,jl,kl->il" [eps; u; v] = Raise (ValueError_subscripts 0).
Proof.
  intros H. unfold einsum.
  change (parse_subscripts "ijk,jl,kl->il")
    with ([["i"; "j"; "k"]; ["j"; "l"]; ["k"; "l"]]%char, ["i"; "l"]%char).
  cbv beta iota zeta. cbn [map length rank_mismatch].
  change (3 =? 3)%nat with true. cbn [negb].
  destruct (Nat.eqb_spec 3 (length (shape eps))) as [E|E].
  - exfalso. apply H. symmetry. exact E.
  - reflexivity.
Qed.

Lemma einsum_cross (n d' n' : nat) (de du dv : list K) :
  let eps := NDArray [3; 3; 3] de in
  let u := NDArray [3; n] du in
  let v := NDArray [d'; n'] dv in
  einsum "ijk,jl,kl->il" [eps; u; v]
  = match broadcast_dim n n', broadcast_dim 3 d' with
    | Some N, Some J =>
        Ok (contract [["i"; "j"; "k"]; ["j"; "l"]; ["k"; "l"]]%char
                     ["i"; "l"]%char ["j"; "k"]%char [3; N] [3; J]
                     [eps; u; v])
    | _, _ => Raise (ValueError_broadcast [[3; 3; 3]; [3; n]; [d'; n']])
    end.
Proof.
  unfold einsum. cbn.
  destruct (broadcast_dim n n'); destruct (d' =? 1)%nat; try reflexivity;
    destruct d' as [|[|[|[|]]]]; reflexivity.
Qed.

Lemma sum_list_app (xs ys : list K) :
  sum_list K (xs ++ ys) = sum_list K xs + sum_list K ys.
Proof.
  unfold sum_list. induction xs as [|x xs IH]; simpl; [ring|].
  rewrite IH. ring.
Qed.

Lemma sum_indices_cons (a : nat) (rest : list nat) (f : list nat -> K) :
  sum_list K (map f (indices (a :: rest)))
  = sum_range K a (fun j =>
      sum_list K (map (fun idx => f (j :: idx)) (indices rest))).
Proof.
  unfold sum_range.
  change (indices (a :: rest))
    with (flat_map (fun i => map (cons i) (indices rest)) (seq 0 a)).
  induction (seq 0 a) as [|j js IH]; simpl; [reflexivity|].
  rewrite map_app, sum_list_app, IH, map_map. reflexivity.
Qed.

(** A sum over the multi-indices of two axes is a double sum. *)
Lemma sum_indices_two (a b : nat) (f : list nat -> K) :
  sum_list K (map f (indices [a; b]))
  = sum_range K a (fun j => sum_range K b (fun l => f [j; l])).
Proof.
  rewrite sum_indices_cons. apply sum_range_ext. intros j _.
  apply sum_indices_one.
Qed.

(** * The cross product in dimension 3 *)

Lemma cross_general (pp : list nat -> Z) (n : nat) (u v : ndarray K)
      (c : lru_cache K) :
  perm_parity_contract pp -> coherent Env pp c ->
  shape u = [3; n] -> shape v = [3; n] ->
  exists out,
    fst (_batch_cross Env pp u v c) = Ok out /\ shape out = [3; n] /\
    well_formed out /\
    (forall i k, (i < 3)%nat -> (k < n)%nat ->
       item out [i; k]
       = sum_range K 3 (fun j => sum_range K 3 (fun l =>
           item (levi_civita_array K pp 3) [i; j; l]
           * item u [j; k] * item v [l; k]))) /\
    (forall k, (k < n)%nat ->
       item out [0%nat; k]
       = sub K (item u [1%nat; k] * item v [2%nat; k]) (item u [2%nat; k] * item v [1%nat; k])
       /\
       item out [1%nat; k]
       = sub K (item u [2%nat; k] * item v [0%nat; k]) (item u [0%nat; k] * item v [2%nat; k])
       /\
       item out [2%nat; k]
       = sub K (item u [0%nat; k] * item v [1%nat; k]) (item u [1%nat; k] * item v [0%nat; k])).
Proof.
  intros Hpp Hc Hu Hv.
  rewrite (batch_cross_einsum pp u v c 3 [n] Hc Hu alloc_3).
  rewrite (levi_civita_3 pp Hpp).
  destruct u as [su du], v as [sv dv]. simpl in Hu, Hv. subst su sv.
  rewrite einsum_cross, !broadcast_dim_same.
  eexists. split; [reflexivity|]. split; [reflexivity|].
  split; [apply well_formed_contract|].
  split.
  - intros i k Hi Hk.
    rewrite item_contract by (apply in_bounds_2; assumption).
    rewrite sum_indices_two.
    destruct i as [|[|[|i]]]; try lia; cbn;
      rewrite !broadcast_index by assumption; ring.
  - intros k Hk.
    rewrite !item_contract by (apply in_bounds_2; (assumption || lia)).
    cbn. rewrite !broadcast_index by assumption. repeat split; ring.
Qed.

(** * The tensor is the same for every element type *)

Lemma gen_phiPOS_int (p : positive) :
  gen_phiPOS (one int_dtype) (add int_dtype) (mul int_dtype) p
  = Zpos p.
Proof.
  induction p as [p IH|p IH|]; simpl in *.
  - destruct p; rewrite ?IH; reflexivity.
  - destruct p; rewrite ?IH; reflexivity.
  - reflexivity.
Qed.

Lemma of_int_int (z : Z) : of_int int_dtype z = z.
Proof.
  destruct z as [|p|p]; unfold of_int; simpl.
  - reflexivity.
  - apply gen_phiPOS_int.
  - rewrite gen_phiPOS_int. reflexivity.
Qed.

Lemma item_astype (a : ndarray int_dtype) (idx : list nat) :
  item (astype K a) idx = of_int K (item a idx).
Proof.
  unfold item, astype. simpl.
  apply (map_nth (of_int K) (data a) 0%Z).
Qed.

Lemma astype_setitems (g : list nat -> Z) (l : list (list nat))
      (a : ndarray int_dtype) :
  fold_left (fun e t => setitem e t (of_int K (g t))) l (astype K a)
  = astype K
      (fold_left (fun e t => setitem e t (of_int int_dtype (g t))) l a).
Proof.
  revert a. induction l as [|t l IH]; intros a; simpl; [reflexivity|].
  rewrite <- IH. f_equal.
  unfold setitem, astype. simpl. rewrite of_int_int, list_set_map.
  reflexivity.
Qed.

Lemma levi_civita_astype (pp : list nat -> Z) (dim : nat) :
  levi_civita_array K pp dim
  = astype K (levi_civita_array int_dtype pp dim).
Proof.
  unfold levi_civita_array, fill_parities. rewrite <- astype_setitems. f_equal.
  unfold astype, zeros. simpl. rewrite map_repeat. reflexivity.
Qed.

Lemma of_int_opp (z : Z) : of_int K (- z) = - of_int K z.
Proof.
  destruct z as [|p|p]; unfold of_int; simpl; ring.
Qed.

(** * Antisymmetry of the tensor in dimensions 2, 3 and 4 *)

Lemma permutation_is_permutation (idx : list nat) (d : nat) :
  Permutation idx (range d) -> is_permutation idx = true.
Proof.
  intros H. unfold is_permutation.
  rewrite (Permutation_length H). unfold range. rewrite length_seq.
  apply forallb_forall. intros i Hi.
  apply existsb_exists. exists i. split.
  - apply (Permutation_in i (Permutation_sym H)). exact Hi.
  - apply Nat.eqb_refl.
Qed.

Lemma perm_sign_cases (p : list nat) :
  perm_sign p = 1%Z \/ perm_sign p = (-1)%Z.
Proof.
  unfold perm_sign. destruct (Nat.even (inversions p)); auto.
Qed.

Lemma levi_civita_check_spec (d : nat) :
  levi_civita_check d = true ->
  forall idx, in_bounds idx (repeat d d) ->
    let eps := levi_civita_array int_dtype perm_sign d in
    (is_permutation idx = true -> item eps idx = perm_sign idx) /\
    (forall a b, (a < d)%nat -> (b < d)%nat -> a <> b ->
       item eps (swap a b idx) = (- item eps idx)%Z /\
       (nth a idx 0%nat = nth b idx 0%nat -> item eps idx = 0%Z)).
Proof.
  unfold levi_civita_check. cbv zeta. intros Hall idx Hidx.
  rewrite forallb_forall in Hall.
  specialize (Hall idx (indices_in _ _ Hidx)).
  apply andb_prop in Hall. destruct Hall as [Hsign Hswap]. split.
  - intros Hp. rewrite Hp in Hsign. apply Z.eqb_eq. exact Hsign.
  - intros a b Ha Hb Hab.
    rewrite forallb_forall in Hswap.
    specialize (Hswap a (proj2 (in_seq d 0 a) (conj (Nat.le_0_l a) Ha))).
    rewrite forallb_forall in Hswap.
    specialize (Hswap b (proj2 (in_seq d 0 b) (conj (Nat.le_0_l b) Hb))).
    apply orb_prop in Hswap. destruct Hswap as [E|Hswap].
    + apply Nat.eqb_eq in E. contradiction.
    + apply andb_prop in Hswap. destruct Hswap as [H1 H2].
      split; [apply Z.eqb_eq; exact H1|].
      intros E. apply orb_prop in H2. destruct H2 as [H2|H2].
      * apply negb_true_iff, Nat.eqb_neq in H2. contradiction.
      * apply Z.eqb_eq. exact H2.
Qed.

Lemma levi_civita_check_234 (d : nat) :
  d = 2%nat \/ d = 3%nat \/ d = 4%nat -> levi_civita_check d = true.
Proof.
  intros [-> | [-> | ->]]; vm_compute; reflexivity.
Qed.

Lemma levi_civita_properties (pp : list nat -> Z) (d : nat) :
  perm_parity_contract pp ->
  d = 2%nat \/ d = 3%nat \/ d = 4%nat ->
  let eps := levi_civita_array K pp d in
  shape eps = repeat d d /\
  forall idx, in_bounds idx (repeat d d) ->
    (forall a b, (a < d)%nat -> (b < d)%nat -> a <> b ->
       nth a idx 0%nat = nth b idx 0%nat -> item eps idx = 0) /\
    (Permutation idx (range d) ->
       (perm_sign idx = 1%Z /\ item eps idx = 1) \/
       (perm_sign idx = (-1)%Z /\ item eps idx = - (1))) /\
    (forall a b, (a < d)%nat -> (b < d)%nat -> a <> b ->
       item eps (swap a b idx) = - item eps idx).
Proof.
  intros Hpp Hd. cbv zeta.
  pose proof (levi_civita_check_234 d Hd) as Hcheck.
  split; [apply shape_levi_civita|].
  rewrite (levi_civita_contract pp d Hpp), levi_civita_astype.
  intros idx Hidx.
  destruct (levi_civita_check_spec d Hcheck idx Hidx) as [Hsign Hswap].
  repeat split.
  - intros a b Ha Hb Hab E. rewrite item_astype.
    rewrite (proj2 (Hswap a b Ha Hb Hab) E). reflexivity.
  - intros Hp. rewrite item_astype.
    rewrite (Hsign (permutation_is_permutation idx d Hp)).
    destruct (perm_sign_cases idx) as [E|E]; rewrite E; auto.
  - intros a b Ha Hb Hab. rewrite !item_astype.
    rewrite (proj1 (Hswap a b Ha Hb Hab)). apply of_int_opp.
Qed.

(** * When the kernels raise *)





Lemma cross_other_dimension (pp : list nat -> Z) (u v : ndarray K)
      (c : lru_cache K) (d : nat) (rest : list nat) :
  coherent Env pp c -> shape u = d :: rest -> d <> 3%nat ->
  fst (_batch_cross Env pp u v c)
  = match alloc_error Env (repeat d d) with
    | Some e => Raise e
    | None => Raise (ValueError_subscripts 0)
    end.
Proof.
  intros Hc Hu Hd. rewrite (batch_cross_outcome pp u v c d rest Hc Hu).
  rewrite body_outcome.
  destruct (alloc_error Env (repeat d d)); [reflexivity|]. simpl.
  apply einsum_cross_rank. unfold ndim.
  rewrite shape_levi_civita, repeat_length. exact Hd.
Qed.

(** * Anticommutativity *)

Lemma cross_anticommutative (pp : list nat -> Z) (d n : nat)
      (u v : ndarray K) (c : lru_cache K) :
  perm_parity_contract pp -> coherent Env pp c ->
  shape u = [d; n] -> shape v = [d; n] ->
  fst (_batch_cross Env pp u v c) = result_map neg (fst (_batch_cross Env pp v u c)).
Proof.
  intros Hpp Hc Hu Hv. destruct (Nat.eq_dec d 3) as [->|Hd].
  - destruct (cross_general pp n u v c Hpp Hc Hu Hv)
      as [out1 [-> [Hs1 [Hw1 [_ H1]]]]].
    destruct (cross_general pp n v u c Hpp Hc Hv Hu)
      as [out2 [-> [Hs2 [Hw2 [_ H2]]]]].
    simpl. f_equal.
    apply ndarray_ext;
      [rewrite Hs1; symmetry; exact Hs2 | exact Hw1
       | apply well_formed_neg; exact Hw2 |].
    rewrite Hs1. intros idx Hidx.
    apply in_bounds_2_inv in Hidx. destruct Hidx as [i [k [-> [Hi Hk]]]].
    rewrite item_neg.
    destruct (H1 k Hk) as [Ha [Hb Hc1]], (H2 k Hk) as [Ha' [Hb' Hc2]].
    destruct i as [|[|[|i]]]; try lia.
    + rewrite Ha, Ha'. ring.
    + rewrite Hb, Hb'. ring.
    + rewrite Hc1, Hc2. ring.
  - rewrite (cross_other_dimension pp u v c d [n] Hc Hu Hd).
    rewrite (cross_other_dimension pp v u c d [n] Hc Hv Hd).
    destruct (alloc_error Env (repeat d d)); reflexivity.
Qed.

(** * Empty batches *)

Lemma empty_array (a : ndarray K) (shp : list nat) :
  shape a = shp -> well_formed a -> prod shp = 0%nat -> a = NDArray shp [].
Proof.
  destruct a as [sa da]. unfold well_formed. simpl. intros -> Hw H0.
  rewrite H0 in Hw. apply length_zero_iff_nil in Hw. subst. reflexivity.
Qed.

(** * The cache *)

Lemma call_entry (pp : list nat -> Z) (dim : nat) (c : lru_cache K)
      (eps : ndarray K) :
  fst (levi_civita_tensor Env pp dim c) = Ok eps ->
  entry (snd (levi_civita_tensor Env pp dim c)) = Some (dim, eps).
Proof.
  unfold levi_civita_tensor.
  destruct (levi_civita_tensor_body K Env pp dim) as [eps'|e];
    destruct (entry c) as [[key eps0]|]; simpl;
    try (destruct (Nat.eqb_spec key dim); simpl);
    intros H; inversion H; subst; reflexivity.
Qed.

Lemma call_entry_raise (pp : list nat -> Z) (dim : nat) (c : lru_cache K)
      (e : exn) :
  fst (levi_civita_tensor Env pp dim c) = Raise e ->
  entry (snd (levi_civita_tensor Env pp dim c)) = entry c.
Proof.
  unfold levi_civita_tensor.
  destruct (levi_civita_tensor_body K Env pp dim) as [eps'|e'];
    destruct (entry c) as [[key eps0]|]; simpl;
    try (destruct (Nat.eqb_spec key dim); simpl);
    intros H; inversion H; subst; reflexivity.
Qed.

Lemma call_hit (pp : list nat -> Z) (dim : nat) (c : lru_cache K)
      (eps : ndarray K) :
  entry c = Some (dim, eps) ->
  levi_civita_tensor Env pp dim c
  = (Ok eps, LruCache (entry c) (S (hits c)) (misses c)).
Proof.
  intros H. unfold levi_civita_tensor. rewrite H, Nat.eqb_refl.
  reflexivity.
Qed.

Lemma call_miss (pp : list nat -> Z) (dim : nat) (c : lru_cache K) :
  option_map fst (entry c) <> Some dim ->
  levi_civita_tensor Env pp dim c
  = match levi_civita_tensor_body K Env pp dim with
    | Ok eps =>
        (Ok eps, LruCache (Some (dim, eps)) (hits c) (S (misses c)))
    | Raise e => (Raise e, LruCache (entry c) (hits c) (S (misses c)))
    end.
Proof.
  intros H. unfold levi_civita_tensor.
  destruct (entry c) as [[key eps]|]; simpl in *; [|reflexivity].
  destruct (Nat.eqb_spec key dim); [congruence | reflexivity].
Qed.

Lemma coherent_history (pp : list nat -> Z) (dims : list nat) :
  coherent Env pp (cache_after Env pp dims (empty_cache K)).
Proof. apply coherent_cache_after, coherent_empty. Qed.

(** * The claims *)

(** C3.  For a matrix batch of shape (d, d, N) and a vector batch of
    shape (d, N), [_batch_matvec] returns a vector batch of shape (d, N)
    with [out[i,k]] the sum over [j] of
    [matrices[i,j,k] * vectors[j,k]]: the matrix-vector product of
    every slot [k]. *)
Theorem batch_matvec_spec (d N : nat) (matrices vectors : ndarray K) :
  shape matrices = [d; d; N] -> shape vectors = [d; N] ->
  exists out,
    _batch_matvec matrices vectors = Ok out /\
    shape out = [d; N] /\ well_formed out /\
    forall i k, (i < d)%nat -> (k < N)%nat ->
      item out [i; k]
      = sum_range K d (fun j => item matrices [i; j; k] * item vectors [j; k]).
Proof. apply matvec_general. Qed.

(** C4.  For two matrix batches of shape (d, d, N), [_batch_matmul]
    returns a matrix batch of shape (d, d, N) with [out[i,l,k]] the sum
    over [j] of [A[i,j,k] * B[j,l,k]]: the matrix product of every
    slot [k]. *)
Theorem batch_matmul_spec (d N : nat) (A B : ndarray K) :
  shape A = [d; d; N] -> shape B = [d; d; N] ->
  exists out,
    _batch_matmul A B = Ok out /\
    shape out = [d; d; N] /\ well_formed out /\
    forall i l k, (i < d)%nat -> (l < d)%nat -> (k < N)%nat ->
      item out [i; l; k]
      = sum_range K d (fun j => item A [i; j; k] * item B [j; l; k]).
Proof. apply matmul_general. Qed.

(** C8.  For matrix batches [A], [B] of shape (d, d, N) and a vector
    batch [v] of shape (d, N), both [_batch_matvec(_batch_matmul(A, B), v)]
    and [_batch_matvec(A, _batch_matvec(B, v))] return, and they return
    the same batch (in exact arithmetic). *)
Theorem batch_matvec_matmul_compose (d N : nat) (A B v : ndarray K) :
  shape A = [d; d; N] -> shape B = [d; d; N] -> shape v = [d; N] ->
  exists out,
    result_bind (_batch_matmul A B) (fun AB => _batch_matvec AB v) = Ok out /\
    result_bind (_batch_matvec B v) (fun Bv => _batch_matvec A Bv) = Ok out.
Proof. apply matvec_matmul_general. Qed.


(** C10.  With block size N = 0 every kernel returns instead of
    raising: [_batch_matvec] on shapes (d, d, 0) and (d, 0) returns the
    empty array of shape (d, 0), [_batch_matmul] on two batches of shape
    (d, d, 0) the empty array of shape (d, d, 0), and [_batch_cross] on
    two batches of shape (3, 0) the empty array of shape (3, 0),
    whatever calls the tensor cache has seen. *)
Theorem kernels_on_empty_batches (pp : list nat -> Z) :
  (forall d (M v : ndarray K),
      shape M = [d; d; 0%nat] -> shape v = [d; 0%nat] ->
      _batch_matvec M v = Ok (NDArray [d; 0%nat] [])) /\
  (forall d (A B : ndarray K),
      shape A = [d; d; 0%nat] -> shape B = [d; d; 0%nat] ->
      _batch_matmul A B = Ok (NDArray [d; d; 0%nat] [])) /\
  (forall (u v : ndarray K) (dims : list nat),
      shape u = [3; 0%nat] -> shape v = [3; 0%nat] ->
      fst (_batch_cross Env pp u v (cache_after Env pp dims (empty_cache K)))
      = Ok (NDArray [3; 0%nat] [])).
Proof.
  repeat split.
  - intros d M v HM Hv.
    destruct (matvec_general d d 0 M v HM Hv) as [out [-> [Hs [Hw _]]]].
    f_equal. apply empty_array; [assumption | assumption | simpl; lia].
  - intros d A B HA HB.
    destruct (matmul_general d d d 0 A B HA HB) as [out [-> [Hs [Hw _]]]].
    f_equal. apply empty_array; [assumption | assumption | simpl; lia].
  - intros u v dims Hu Hv.
    rewrite (batch_cross_einsum pp u v _ 3 [0%nat]
               (coherent_history pp dims) Hu alloc_3).
    pose proof (shape_levi_civita pp 3) as He.
    destruct (levi_civita_array K pp 3) as [se de].
    destruct u as [su du], v as [sv dv]. simpl in *. subst se su sv.
    rewrite einsum_cross, !broadcast_dim_same.
    apply f_equal. apply empty_array;
      [reflexivity | apply well_formed_contract | reflexivity].
Qed.

(** C1, as amended.  For vector batches [u], [v] of shape (3, N),
    [_batch_cross] returns a vector batch of shape (3, N) with
    [out[i,k]] the sum over [j] and [l] of
    [epsilon[i,j,l] * u[j,k] * v[l,k]], where [epsilon] is the tensor
    [levi_civita_tensor(3)] returns; this is the cross product of every
    slot. *)
Theorem batch_cross_dimension_3 (pp : list nat -> Z) (N : nat)
        (u v : ndarray K) (dims : list nat) :
  perm_parity_contract pp ->
  shape u = [3; N] -> shape v = [3; N] ->
  let c := cache_after Env pp dims (empty_cache K) in
  exists epsilon out,
    fst (levi_civita_tensor Env pp 3 c) = Ok epsilon /\
    fst (_batch_cross Env pp u v c) = Ok out /\
    shape out = [3; N] /\ well_formed out /\
    (forall i k, (i < 3)%nat -> (k < N)%nat ->
       item out [i; k]
       = sum_range K 3 (fun j => sum_range K 3 (fun l =>
           item epsilon [i; j; l] * item u [j; k] * item v [l; k]))) /\
    (forall k, (k < N)%nat ->
       item out [0%nat; k]
       = sub K (item u [1%nat; k] * item v [2; k])
               (item u [2; k] * item v [1%nat; k])
       /\
       item out [1%nat; k]
       = sub K (item u [2; k] * item v [0%nat; k])
               (item u [0%nat; k] * item v [2; k])
       /\
       item out [2; k]
       = sub K (item u [0%nat; k] * item v [1%nat; k])
               (item u [1%nat; k] * item v [0%nat; k])).
Proof.
  intros Hpp Hu Hv c.
  exists (levi_civita_array K pp 3).
  destruct (cross_general pp N u v c Hpp (coherent_history pp dims) Hu Hv)
    as [out H].
  exists out. split; [|exact H].
  exact (levi_civita_tensor_value pp 3 c (coherent_history pp dims) alloc_3).
Qed.

(** C7, as amended.  For vector batches [u], [v] of one shape (3, N),
    [_batch_cross(u, v)] and [_batch_cross(v, u)] both return, and the
    first batch is the negation of the second.  (In a dimension other
    than 3 both calls raise, so that neither side is a batch.) *)
Theorem batch_cross_anticommutative (pp : list nat -> Z) (N : nat)
        (u v : ndarray K) (dims : list nat) :
  perm_parity_contract pp ->
  shape u = [3; N] -> shape v = [3; N] ->
  let c := cache_after Env pp dims (empty_cache K) in
  exists out,
    fst (_batch_cross Env pp v u c) = Ok out /\
    fst (_batch_cross Env pp u v c) = Ok (neg out).
Proof.
  intros Hpp Hu Hv c.
  pose proof (cross_anticommutative pp 3 N u v c Hpp
                (coherent_history pp dims) Hu Hv) as H.
  destruct (cross_general pp N v u c Hpp (coherent_history pp dims) Hv Hu)
    as [out [E _]].
  exists out. split; [exact E|]. rewrite H, E. reflexivity.
Qed.

(** C5.  For d = 2, 3, 4 the tensor [levi_civita_tensor(d)] returns has
    shape (d,)*d; its entry at an index tuple with the same index at two
    positions is 0; its entry at a permutation of 0..d-1 is the sign of
    the permutation, 1 or -1; and exchanging two components of an index
    tuple negates the entry. *)
Theorem levi_civita_tensor_antisymmetric (pp : list nat -> Z) (d : nat)
        (dims : list nat) :
  perm_parity_contract pp ->
  d = 2%nat \/ d = 3%nat \/ d = 4%nat ->
  exists epsilon,
  fst (levi_civita_tensor Env pp d (cache_after Env pp dims (empty_cache K)))
  = Ok epsilon /\
  shape epsilon = repeat d d /\
  forall idx, in_bounds idx (repeat d d) ->
    (forall a b, (a < d)%nat -> (b < d)%nat -> a <> b ->
       nth a idx 0%nat = nth b idx 0%nat -> item epsilon idx = 0) /\
    (Permutation idx (range d) ->
       (perm_sign idx = 1%Z /\ item epsilon idx = 1) \/
       (perm_sign idx = (-1)%Z /\ item epsilon idx = - (1))) /\
    (forall a b, (a < d)%nat -> (b < d)%nat -> a <> b ->
       item epsilon (swap a b idx) = - item epsilon idx).
Proof.
  intros Hpp Hd.
  assert (Hsmall : (d <= 4)%nat) by lia.
  exists (levi_civita_array K pp d). split.
  - exact (levi_civita_tensor_value pp d _ (coherent_history pp dims)
             (alloc_tensor_small d Hsmall)).
  - apply levi_civita_properties; assumption.
Qed.

(** C6.  The outcome of [levi_civita_tensor(d1)] does not depend on the
    calls made before: after any sequence of calls it is the outcome of
    the body for [d1], a tensor whenever [d1] is at most 4.  When the
    call returns, a second call with [d1] is a cache hit that returns the
    tensor of the first call without running the body; and after a call
    with a dimension [d2], a call with [d1] returns a tensor equal to the
    first one.  With [d2] other than [d1] that last call has run the body
    again when the call with [d2] returned, and is a hit when the call
    with [d2] raised, the cache keeping its entry then. *)
Theorem levi_civita_tensor_cache (pp : list nat -> Z) (dims : list nat)
        (d1 d2 : nat) :
  let first :=
    levi_civita_tensor Env pp d1 (cache_after Env pp dims (empty_cache K)) in
  let again := levi_civita_tensor Env pp d1 (snd first) in
  let other := levi_civita_tensor Env pp d2 (snd first) in
  let back := levi_civita_tensor Env pp d1 (snd other) in
  fst first = levi_civita_tensor_body K Env pp d1 /\
  ((d1 <= 4)%nat -> exists epsilon, fst first = Ok epsilon) /\
  (forall epsilon, fst first = Ok epsilon ->
     fst again = Ok epsilon /\
     misses (snd again) = misses (snd first) /\
     hits (snd again) = S (hits (snd first))) /\
  fst back = fst first /\
  (d2 <> d1 -> forall epsilon, fst first = Ok epsilon ->
     match fst other with
     | Ok _ =>
         misses (snd back) = S (S (misses (snd first))) /\
         hits (snd back) = hits (snd first)
     | Raise _ =>
         misses (snd back) = S (misses (snd first)) /\
         hits (snd back) = S (hits (snd first))
     end).
Proof.
  intros first again other back.
  pose proof (coherent_history pp dims) as Hc0.
  pose proof (levi_civita_tensor_outcome pp d1 _ Hc0) as Hfirst.
  pose proof (coherent_call pp d1 _ Hc0) as Hc1.
  fold first in Hfirst, Hc1.
  split; [exact Hfirst|]. split; [|split; [|split]].
  - intros Hsmall. exists (levi_civita_array K pp d1).
    rewrite Hfirst. apply body_small, Hsmall.
  - intros epsilon Heps.
    pose proof (call_entry pp d1 _ epsilon Heps) as E1. fold first in E1.
    unfold again. rewrite (call_hit pp d1 (snd first) epsilon E1).
    simpl. auto.
  - unfold back.
    rewrite (levi_civita_tensor_outcome pp d1 (snd other)
               (coherent_call pp d2 _ Hc1)).
    symmetry. exact Hfirst.
  - intros Hd epsilon Heps.
    pose proof (call_entry pp d1 _ epsilon Heps) as E1. fold first in E1.
    assert (Hbody : levi_civita_tensor_body K Env pp d1 = Ok epsilon)
      by (rewrite <- Hfirst; exact Heps).
    unfold back, other.
    rewrite (call_miss pp d2 (snd first))
      by (rewrite E1; simpl; congruence).
    destruct (levi_civita_tensor_body K Env pp d2) as [t|e]; simpl.
    + rewrite call_miss by (simpl; congruence).
      rewrite Hbody. simpl. auto.
    + rewrite (call_hit pp d1 _ epsilon) by (simpl; exact E1).
      simpl. auto.
Qed.


(** X1.  Orthogonality: in dimension 3 the dot products of
    [_batch_cross(u, v)] with [u] and with [v] are 0 in every slot. *)
Theorem batch_cross_orthogonal (pp : list nat -> Z) (N : nat)
        (u v : ndarray K) (dims : list nat) :
  perm_parity_contract pp ->
  shape u = [3; N] -> shape v = [3; N] ->
  exists out,
    fst (_batch_cross Env pp u v (cache_after Env pp dims (empty_cache K))) = Ok out /\
    forall k, (k < N)%nat ->
      sum_range K 3 (fun i => item out [i; k] * item u [i; k]) = 0 /\
      sum_range K 3 (fun i => item out [i; k] * item v [i; k]) = 0.
Proof.
  intros Hpp Hu Hv.
  destruct (cross_general pp N u v _ Hpp (coherent_history pp dims) Hu Hv)
    as [out [E [_ [_ [_ H]]]]].
  exists out. split; [exact E|].
  intros k Hk. destruct (H k Hk) as [H0 [H1 H2]].
  unfold sum_range. cbn [seq map sum_list fold_right].
  rewrite H0, H1, H2. split; ring.
Qed.

(** X2.  Linearity: when the entries of [v] are [a * v1 + b * v2], the
    entries of [_batch_matvec(M, v)] are [a] times those of
    [_batch_matvec(M, v1)] plus [b] times those of
    [_batch_matvec(M, v2)]. *)
Theorem batch_matvec_linear (d N : nat) (M v v1 v2 : ndarray K) (a b : K) :
  shape M = [d; d; N] ->
  shape v = [d; N] -> shape v1 = [d; N] -> shape v2 = [d; N] ->
  (forall j k, (j < d)%nat -> (k < N)%nat ->
     item v [j; k] = a * item v1 [j; k] + b * item v2 [j; k]) ->
  exists out out1 out2,
    _batch_matvec M v = Ok out /\
    _batch_matvec M v1 = Ok out1 /\
    _batch_matvec M v2 = Ok out2 /\
    forall i k, (i < d)%nat -> (k < N)%nat ->
      item out [i; k] = a * item out1 [i; k] + b * item out2 [i; k].
Proof.
  intros HM Hv Hv1 Hv2 Hlin.
  destruct (matvec_general d d N M v HM Hv) as [out [E [_ [_ H]]]].
  destruct (matvec_general d d N M v1 HM Hv1) as [out1 [E1 [_ [_ H1]]]].
  destruct (matvec_general d d N M v2 HM Hv2) as [out2 [E2 [_ [_ H2]]]].
  exists out, out1, out2. repeat (split; [assumption|]).
  intros i k Hi Hk. rewrite H, H1, H2 by assumption.
  unfold sum_range. rewrite !sum_list_mul_l, <- sum_list_add.
  apply sum_list_ext. intros j Hj. apply in_seq in Hj.
  rewrite Hlin by (assumption || lia). ring.
Qed.

(** * Further properties *)

(** ** Every entry of the tensor, in every dimension *)

Lemma nth_list_set_same (A : Type) (l : list A) (n : nat) (x d : A) :
  (n < length l)%nat -> nth n (list_set l n x) d = x.
Proof.
  revert n. induction l as [|y l IH]; intros [|n] H; simpl in *;
    try lia; [reflexivity | apply IH; lia].
Qed.

Lemma nth_list_set_other (A : Type) (l : list A) (n m : nat) (x d : A) :
  n <> m -> nth n (list_set l m x) d = nth n l d.
Proof.
  revert n m. induction l as [|y l IH]; intros [|n] [|m] H; simpl;
    try reflexivity; try congruence.
  apply IH. congruence.
Qed.

Lemma ravel_injective (shp idx idx' : list nat) :
  in_bounds idx shp -> in_bounds idx' shp ->
  ravel shp idx = ravel shp idx' -> idx = idx'.
Proof.
  intros H H' E.
  rewrite <- (nth_indices shp idx [] H), <- (nth_indices shp idx' [] H'), E.
  reflexivity.
Qed.

Lemma item_setitem_same (a : ndarray K) (idx : list nat) (x : K) :
  well_formed a -> in_bounds idx (shape a) ->
  item (setitem a idx x) idx = x.
Proof.
  intros Hw Hb. unfold item, setitem. simpl.
  apply nth_list_set_same. rewrite Hw. apply ravel_lt, Hb.
Qed.

Lemma item_setitem_other (a : ndarray K) (idx idx' : list nat) (x : K) :
  in_bounds idx (shape a) -> in_bounds idx' (shape a) -> idx <> idx' ->
  item (setitem a idx' x) idx = item a idx.
Proof.
  intros Hb Hb' Hne. unfold item, setitem. simpl.
  apply nth_list_set_other. intros E. apply Hne.
  exact (ravel_injective (shape a) idx idx' Hb Hb' E).
Qed.

Lemma well_formed_setitem (a : ndarray K) (idx : list nat) (x : K) :
  well_formed a -> well_formed (setitem a idx x).
Proof.
  unfold well_formed, setitem. simpl. rewrite length_list_set. trivial.
Qed.

(** A sequence of assignments within the shape: a multi-index that is
    not assigned keeps its element, one that is assigned holds the value
    assigned to it. *)
Lemma item_setitems (h : list nat -> K) (l : list (list nat))
      (a : ndarray K) (idx : list nat) :
  well_formed a -> in_bounds idx (shape a) ->
  (forall t, In t l -> in_bounds t (shape a)) ->
  item (fold_left (fun e t => setitem e t (h t)) l a) idx
  = if in_dec (list_eq_dec Nat.eq_dec) idx l then h idx else item a idx.
Proof.
  revert a. induction l as [|t l IH]; intros a Hw Hb Hl; simpl.
  - reflexivity.
  - rewrite IH;
      [| apply well_formed_setitem, Hw | exact Hb
       | intros t' Ht'; apply Hl; right; exact Ht'].
    destruct (in_dec (list_eq_dec Nat.eq_dec) idx l) as [Hin|Hin].
    + destruct (list_eq_dec Nat.eq_dec t idx); reflexivity.
    + destruct (list_eq_dec Nat.eq_dec t idx) as [->|Hne].
      * apply item_setitem_same; assumption.
      * apply item_setitem_other;
          [exact Hb | apply Hl; left; reflexivity | congruence].
Qed.

Lemma item_zeros (shp idx : list nat) : item (zeros K shp) idx = 0.
Proof. unfold item, zeros. simpl. apply nth_repeat. Qed.

Lemma selections_complete (A : Type) (l : list A) (x : A) :
  In x l ->
  exists rest,
    In (x, rest) (selections l) /\
    forall y, In y l -> y <> x -> In y rest.
Proof.
  induction l as [|y l IH]; simpl; [intros []|].
  intros [->|Hin].
  - exists l. split; [left; reflexivity|].
    intros z [->|Hz] Hne; [congruence | exact Hz].
  - destruct (IH Hin) as [rest [Hsel Hrest]].
    exists (y :: rest). split.
    + right. apply in_map_iff. exists (x, rest). split; [reflexivity|exact Hsel].
    + intros z [->|Hz] Hne; [left; reflexivity | right; apply Hrest; assumption].
Qed.

Lemma permutations_complete (A : Type) (t l : list A) :
  NoDup t -> incl t l -> In t (permutations l (length t)).
Proof.
  revert l. induction t as [|x t IH]; intros l Hnd Hincl; simpl.
  - left. reflexivity.
  - inversion Hnd as [|? ? Hx Ht]; subst.
    destruct (selections_complete A l x (Hincl x (or_introl eq_refl)))
      as [rest [Hsel Hrest]].
    apply in_flat_map. exists (x, rest). split; [exact Hsel|].
    apply in_map. apply IH; [exact Ht|].
    intros y Hy. apply Hrest.
    + apply Hincl. right. exact Hy.
    + intros ->. contradiction.
Qed.

Lemma is_permutation_in_permutations (dim : nat) (idx : list nat) :
  length idx = dim -> is_permutation idx = true ->
  In idx (permutations (range dim) dim).
Proof.
  intros Hlen Hp. unfold is_permutation in Hp. rewrite Hlen in Hp.
  assert (Hincl : incl (seq 0 dim) idx).
  { intros i Hi. rewrite forallb_forall in Hp. specialize (Hp i Hi).
    apply existsb_exists in Hp. destruct Hp as [x [Hx E]].
    apply Nat.eqb_eq in E. subst. exact Hx. }
  assert (Hle : (length idx <= length (seq 0 dim))%nat)
    by (rewrite length_seq, Hlen; constructor).
  pose proof (NoDup_incl_NoDup (seq_NoDup dim 0) Hle Hincl) as Hnd.
  pose proof (NoDup_length_incl (seq_NoDup dim 0) Hle Hincl) as Hback.
  rewrite <- Hlen at 2. apply permutations_complete; assumption.
Qed.

Lemma in_bounds_length (idx shp : list nat) :
  in_bounds idx shp -> length idx = length shp.
Proof.
  intros H. induction H; simpl; congruence.
Qed.

Lemma levi_civita_entries (pp : list nat -> Z) (dim : nat) (idx : list nat) :
  in_bounds idx (repeat dim dim) ->
  item (levi_civita_array K pp dim) idx
  = if is_permutation idx then of_int K (pp idx) else 0.
Proof.
  intros Hb. unfold levi_civita_array, fill_parities.
  rewrite (item_setitems (fun t => of_int K (pp t)));
    [| unfold well_formed, zeros; simpl; apply repeat_length
     | exact Hb
     | intros t Ht; apply permutations_in_bounds, Ht].
  destruct (in_dec (list_eq_dec Nat.eq_dec) idx
                   (permutations (range dim) dim)) as [Hin|Hin].
  - rewrite (permutations_are_permutations dim idx Hin). reflexivity.
  - destruct (is_permutation idx) eqn:Hp; [|apply item_zeros].
    exfalso. apply Hin. apply is_permutation_in_permutations; [|exact Hp].
    rewrite (in_bounds_length _ _ Hb). apply repeat_length.
Qed.

(** X3.  In every dimension [d] and after any sequence of calls,
    [levi_civita_tensor(d)] returns whenever [np.zeros] can allocate the
    tensor, and the tensor it returns holds, at each multi-index within
    its shape, the value of [perm_parity] when the multi-index is a
    permutation of 0..d-1 and 0 otherwise. *)
Theorem levi_civita_tensor_entries (pp : list nat -> Z) (d : nat)
        (dims idx : list nat) :
  in_bounds idx (repeat d d) ->
  (alloc_error Env (repeat d d) = None ->
   exists epsilon,
     fst (levi_civita_tensor Env pp d
            (cache_after Env pp dims (empty_cache K))) = Ok epsilon) /\
  (forall epsilon,
     fst (levi_civita_tensor Env pp d
            (cache_after Env pp dims (empty_cache K))) = Ok epsilon ->
     item epsilon idx
     = if is_permutation idx then of_int K (pp idx) else 0).
Proof.
  intros Hb.
  rewrite (levi_civita_tensor_outcome pp d _ (coherent_history pp dims)).
  split.
  - intros Ha. exists (levi_civita_array K pp d).
    rewrite body_outcome, Ha. reflexivity.
  - intros epsilon Heps.
    destruct (body_returns pp d epsilon Heps) as [_ ->].
    apply levi_civita_entries, Hb.
Qed.

(** ** The counters of the cache *)








Lemma call_entry_outcome (pp : list nat -> Z) (dim : nat) (c : lru_cache K) :
  coherent Env pp c ->
  entry (snd (levi_civita_tensor Env pp dim c))
  = match alloc_error Env (repeat dim dim) with
    | None => Some (dim, levi_civita_array K pp dim)
    | Some _ => entry c
    end.
Proof.
  intros Hc.
  pose proof (levi_civita_tensor_outcome pp dim c Hc) as Hout.
  rewrite body_outcome in Hout.
  destruct (alloc_error Env (repeat dim dim)) as [e|].
  - exact (call_entry_raise pp dim c e Hout).
  - exact (call_entry pp dim c _ Hout).
Qed.


(** ** The cache under [_batch_cross] *)

(** X6.  What [_batch_cross] returns or raises does not depend on the
    calls the tensor cache has seen. *)
Theorem batch_cross_history_independent (pp : list nat -> Z)
        (u v : ndarray K) (dims dims' : list nat) :
  fst (_batch_cross Env pp u v (cache_after Env pp dims (empty_cache K)))
  = fst (_batch_cross Env pp u v (cache_after Env pp dims' (empty_cache K))).
Proof.
  destruct (shape u) as [|d rest] eqn:Hu.
  - unfold _batch_cross. rewrite Hu. reflexivity.
  - rewrite (batch_cross_outcome pp u v _ d rest (coherent_history pp dims) Hu).
    rewrite (batch_cross_outcome pp u v _ d rest
               (coherent_history pp dims') Hu).
    reflexivity.
Qed.

Lemma batch_cross_cache (pp : list nat -> Z) (u v : ndarray K)
      (c : lru_cache K) (d : nat) (rest : list nat) :
  shape u = d :: rest ->
  snd (_batch_cross Env pp u v c) = snd (levi_civita_tensor Env pp d c).
Proof.
  intros Hu. unfold _batch_cross. rewrite Hu.
  destruct (levi_civita_tensor Env pp d c). reflexivity.
Qed.

(** X7.  A call of [_batch_cross] on a first operand whose first axis
    has extent [d] leaves the tensor of dimension [d] as the cache entry
    whenever [np.zeros] can allocate it, also when [d] is not 3 and the
    call raises in [np.einsum]: such a failing call has replaced the
    cached tensor.  When [np.zeros] cannot allocate the tensor, the call
    raises its exception and the entry stays as it was. *)
Theorem batch_cross_cache_effect (pp : list nat -> Z) (u v : ndarray K)
        (dims : list nat) (d : nat) (rest : list nat) :
  shape u = d :: rest ->
  let c := cache_after Env pp dims (empty_cache K) in
  let r := _batch_cross Env pp u v c in
  match alloc_error Env (repeat d d) with
  | None =>
      entry (snd r) = Some (d, levi_civita_array K pp d) /\
      (d <> 3%nat -> fst r = Raise (ValueError_subscripts 0))
  | Some e => entry (snd r) = entry c /\ fst r = Raise e
  end.
Proof.
  intros Hu c r.
  pose proof (call_entry_outcome pp d c (coherent_history pp dims)) as He.
  pose proof (batch_cross_outcome pp u v c d rest
                (coherent_history pp dims) Hu) as Hout.
  rewrite body_outcome in Hout.
  unfold r. rewrite (batch_cross_cache pp u v c d rest Hu).
  destruct (alloc_error Env (repeat d d)) as [e|] eqn:Ha.
  - split; [exact He | exact Hout].
  - split; [exact He|]. intros Hd.
    rewrite (cross_other_dimension pp u v c d rest
               (coherent_history pp dims) Hu Hd), Ha.
    reflexivity.
Qed.

(** ** Operands with the wrong number of axes *)

Lemma matvec_rank (M v : ndarray K) :
  (ndim M <> 3%nat -> _batch_matvec M v = Raise (ValueError_subscripts 0)) /\
  (ndim M = 3%nat -> ndim v <> 2%nat ->
   _batch_matvec M v = Raise (ValueError_subscripts 1)).
Proof.
  unfold ndim, _batch_matvec, einsum.
  change (parse_subscripts "ijk,jk->ik")
    with ([["i"; "j"; "k"]; ["j"; "k"]]%char, ["i"; "k"]%char).
  cbv beta iota zeta. cbn [map length rank_mismatch].
  change (2 =? 2)%nat with true. cbn [negb].
  destruct (Nat.eqb_spec 3 (length (shape M))) as [E|E];
    destruct (Nat.eqb_spec 2 (length (shape v))) as [E'|E'];
    split; intros; try congruence; reflexivity.
Qed.

Lemma matmul_rank (A B : ndarray K) :
  (ndim A <> 3%nat -> _batch_matmul A B = Raise (ValueError_subscripts 0)) /\
  (ndim A = 3%nat -> ndim B <> 3%nat ->
   _batch_matmul A B = Raise (ValueError_subscripts 1)).
Proof.
  unfold ndim, _batch_matmul, einsum.
  change (parse_subscripts "ijk,jlk->ilk")
    with ([["i"; "j"; "k"]; ["j"; "l"; "k"]]%char, ["i"; "l"; "k"]%char).
  cbv beta iota zeta. cbn [map length rank_mismatch].
  change (2 =? 2)%nat with true. cbn [negb].
  destruct (Nat.eqb_spec 3 (length (shape A))) as [E|E];
    destruct (Nat.eqb_spec 3 (length (shape B))) as [E'|E'];
    split; intros; try congruence; reflexivity.
Qed.

Lemma einsum_cross_ranks (eps u v : ndarray K) :
  ndim eps = 3%nat ->
  (ndim u <> 2%nat ->
   einsum "ijk,jl,kl->il" [eps; u; v] = Raise (ValueError_subscripts 1)) /\
  (ndim u = 2%nat -> ndim v <> 2%nat ->
   einsum "ijk,jl,kl->il" [eps; u; v] = Raise (ValueError_subscripts 2)).
Proof.
  unfold ndim, einsum.
  change (parse_subscripts "ijk,jl,kl->il")
    with ([["i"; "j"; "k"]; ["j"; "l"]; ["k"; "l"]]%char, ["i"; "l"]%char).
  cbv beta iota zeta. cbn [map length rank_mismatch].
  change (3 =? 3)%nat with true. cbn [negb].
  intros ->. rewrite Nat.eqb_refl.
  destruct (Nat.eqb_spec 2 (length (shape u))) as [E|E];
    destruct (Nat.eqb_spec 2 (length (shape v))) as [E'|E'];
    split; intros; try congruence; reflexivity.
Qed.

(** X8.  An operand with the wrong number of axes makes a kernel raise
    the [ValueError] that names the first such operand, whatever the
    extents are: the number of axes is checked before the shapes are
    compared.  For [_batch_cross] the operands are counted after the
    tensor. *)
Theorem kernel_rank_errors (pp : list nat -> Z) :
  (forall M v : ndarray K,
      (ndim M <> 3%nat ->
       _batch_matvec M v = Raise (ValueError_subscripts 0)) /\
      (ndim M = 3%nat -> ndim v <> 2%nat ->
       _batch_matvec M v = Raise (ValueError_subscripts 1))) /\
  (forall A B : ndarray K,
      (ndim A <> 3%nat ->
       _batch_matmul A B = Raise (ValueError_subscripts 0)) /\
      (ndim A = 3%nat -> ndim B <> 3%nat ->
       _batch_matmul A B = Raise (ValueError_subscripts 1))) /\
  (forall (u v : ndarray K) (dims rest : list nat),
      shape u = 3%nat :: rest ->
      let c := cache_after Env pp dims (empty_cache K) in
      (ndim u <> 2%nat ->
       fst (_batch_cross Env pp u v c) = Raise (ValueError_subscripts 1)) /\
      (ndim u = 2%nat -> ndim v <> 2%nat ->
       fst (_batch_cross Env pp u v c) = Raise (ValueError_subscripts 2))).
Proof.
  split; [exact matvec_rank|]. split; [exact matmul_rank|].
  intros u v dims rest Hu c.
  rewrite (batch_cross_einsum pp u v c 3 rest (coherent_history pp dims) Hu alloc_3).
  apply einsum_cross_ranks. unfold ndim.
  rewrite shape_levi_civita. reflexivity.
Qed.

(** ** What a call that returns guarantees *)

(** X9.  Whenever [_batch_matvec] returns, the matrix collection had
    three axes and the vector collection two, their extents agreed up to
    broadcasting, and the result is a well-formed array of two axes: the
    rows of the matrices by the broadcast block size. *)
Theorem batch_matvec_returns (M v out : ndarray K) :
  _batch_matvec M v = Ok out ->
  exists p q n q' n' N,
    shape M = [p; q; n] /\ shape v = [q'; n'] /\
    agree q q' /\ broadcast_dim n n' = Some N /\
    shape out = [p; N] /\ well_formed out.
Proof.
  intros H.
  destruct (Nat.eq_dec (ndim M) 3) as [HM|HM];
    [|rewrite (proj1 (matvec_rank M v) HM) in H; discriminate].
  destruct (Nat.eq_dec (ndim v) 2) as [Hv|Hv];
    [|rewrite (proj2 (matvec_rank M v) HM Hv) in H; discriminate].
  destruct M as [[|p [|q [|n [|x sM]]]] dM]; try discriminate HM.
  destruct v as [[|q' [|n' [|x sv]]] dv]; try discriminate Hv.
  rewrite einsum_matvec in H.
  destruct (broadcast_dim n n') as [N|] eqn:En; [|discriminate].
  destruct (broadcast_dim q q') as [J|] eqn:Eq; [|discriminate].
  inversion H; subst. exists p, q, n, q', n', N.
  split; [reflexivity|]. split; [reflexivity|].
  split; [apply broadcast_dim_agree; eauto|].
  split; [exact En|]. split; [reflexivity | apply well_formed_contract].
Qed.

(** X10.  Whenever [_batch_matmul] returns, both collections had three
    axes, their extents agreed up to broadcasting, and the result is a
    well-formed array of three axes: the rows of the first by the
    columns of the second by the broadcast block size. *)
Theorem batch_matmul_returns (A B out : ndarray K) :
  _batch_matmul A B = Ok out ->
  exists p q n q' r n' N,
    shape A = [p; q; n] /\ shape B = [q'; r; n'] /\
    agree q q' /\ broadcast_dim n n' = Some N /\
    shape out = [p; r; N] /\ well_formed out.
Proof.
  intros H.
  destruct (Nat.eq_dec (ndim A) 3) as [HA|HA];
    [|rewrite (proj1 (matmul_rank A B) HA) in H; discriminate].
  destruct (Nat.eq_dec (ndim B) 3) as [HB|HB];
    [|rewrite (proj2 (matmul_rank A B) HA HB) in H; discriminate].
  destruct A as [[|p [|q [|n [|x sA]]]] dA]; try discriminate HA.
  destruct B as [[|q' [|r [|n' [|x sB]]]] dB]; try discriminate HB.
  rewrite einsum_matmul in H.
  destruct (broadcast_dim n n') as [N|] eqn:En; [|discriminate].
  destruct (broadcast_dim q q') as [J|] eqn:Eq; [|discriminate].
  inversion H; subst. exists p, q, n, q', r, n', N.
  split; [reflexivity|]. split; [reflexivity|].
  split; [apply broadcast_dim_agree; eauto|].
  split; [exact En|]. split; [reflexivity | apply well_formed_contract].
Qed.

(** ** Broadcasting one vector or one matrix over the slots *)


Lemma broadcast_dim_1_l (n : nat) : broadcast_dim 1 n = Some n.
Proof. reflexivity. Qed.



(** ** Products of matrix batches *)



(** ** Identity matrices *)

Lemma sum_list_delta (l : list nat) (i : nat) (f : nat -> K) :
  NoDup l ->
  sum_list K (map (fun j => (if i =? j then 1 else 0) * f j) l)
  = if in_dec Nat.eq_dec i l then f i else 0.
Proof.
  induction l as [|a l IH]; intros Hnd; [reflexivity|].
  inversion Hnd as [|? ? Ha Hl]; subst.
  cbn [map sum_list fold_right]. fold (sum_list K) in *.
  change (fold_right (add K) 0
            (map (fun j => (if i =? j then 1 else 0) * f j) l))
    with (sum_list K (map (fun j => (if i =? j then 1 else 0) * f j) l)).
  rewrite (IH Hl).
  destruct (Nat.eqb_spec i a) as [->|Hne].
  - destruct (in_dec Nat.eq_dec a (a :: l)) as [_|H];
      [|exfalso; apply H; left; reflexivity].
    destruct (in_dec Nat.eq_dec a l); [contradiction|]. ring.
  - destruct (in_dec Nat.eq_dec i l) as [Hin|Hin];
      destruct (in_dec Nat.eq_dec i (a :: l)) as [Hin'|Hin'];
      try ring.
    + exfalso. apply Hin'. right. exact Hin.
    + exfalso. destruct Hin' as [E|E]; [congruence | contradiction].
Qed.

Lemma sum_range_delta (n i : nat) (f : nat -> K) :
  (i < n)%nat ->
  sum_range K n (fun j => (if i =? j then 1 else 0) * f j) = f i.
Proof.
  intros H. unfold sum_range. rewrite sum_list_delta by apply seq_NoDup.
  destruct (in_dec Nat.eq_dec i (seq 0 n)) as [_|Hn]; [reflexivity|].
  exfalso. apply Hn, in_seq. lia.
Qed.

(** X15.  Multiplying by identity matrices changes nothing: when every
    slot of [eye] is the identity matrix, [_batch_matvec(eye, v)] returns
    [v]. *)
Theorem batch_matvec_identity (d N : nat) (eye v : ndarray K) :
  shape eye = [d; d; N] -> shape v = [d; N] -> well_formed v ->
  (forall i j k, (i < d)%nat -> (j < d)%nat -> (k < N)%nat ->
     item eye [i; j; k] = if i =? j then 1 else 0) ->
  _batch_matvec eye v = Ok v.
Proof.
  intros HI Hv Hw Hid.
  destruct (matvec_general d d N eye v HI Hv) as [out [-> [Hs [Hwo Hout]]]].
  f_equal. apply ndarray_ext; [congruence | assumption | assumption |].
  rewrite Hs. intros idx Hidx.
  apply in_bounds_2_inv in Hidx. destruct Hidx as [i [k [-> [Hi Hk]]]].
  rewrite Hout by assumption.
  rewrite <- (sum_range_delta d i (fun j => item v [j; k]) Hi).
  apply sum_range_ext. intros j Hj. rewrite Hid by assumption. reflexivity.
Qed.

(** X16.  Identity matrices are neutral for [_batch_matmul] on both
    sides: when every slot of [eye] is the identity matrix,
    [_batch_matmul(eye, A)] and [_batch_matmul(A, eye)] return [A]. *)
Theorem batch_matmul_identity (d N : nat) (eye A : ndarray K) :
  shape eye = [d; d; N] -> shape A = [d; d; N] -> well_formed A ->
  (forall i j k, (i < d)%nat -> (j < d)%nat -> (k < N)%nat ->
     item eye [i; j; k] = if i =? j then 1 else 0) ->
  _batch_matmul eye A = Ok A /\ _batch_matmul A eye = Ok A.
Proof.
  intros HI HA Hw Hid. split.
  - destruct (matmul_general d d d N eye A HI HA) as [out [-> [Hs [Hwo Hout]]]].
    f_equal. apply ndarray_ext; [congruence | assumption | assumption |].
    rewrite Hs. intros idx Hidx.
    apply in_bounds_3_inv in Hidx.
    destruct Hidx as [i [l [k [-> [Hi [Hl Hk]]]]]].
    rewrite Hout by assumption.
    rewrite <- (sum_range_delta d i (fun j => item A [j; l; k]) Hi).
    apply sum_range_ext. intros j Hj. rewrite Hid by assumption. reflexivity.
  - destruct (matmul_general d d d N A eye HA HI) as [out [-> [Hs [Hwo Hout]]]].
    f_equal. apply ndarray_ext; [congruence | assumption | assumption |].
    rewrite Hs. intros idx Hidx.
    apply in_bounds_3_inv in Hidx.
    destruct Hidx as [i [l [k [-> [Hi [Hl Hk]]]]]].
    rewrite Hout by assumption.
    rewrite <- (sum_range_delta d l (fun j => item A [i; j; k]) Hl).
    apply sum_range_ext. intros j Hj. rewrite Hid by assumption.
    rewrite (Nat.eqb_sym j l). ring.
Qed.

(** ** More on the cross product *)

(** X17.  The cross product of a batch with itself is the zero batch:
    on [u] of shape (3, N), [_batch_cross(u, u)] returns
    [np.zeros((3, N))]. *)
Theorem batch_cross_self (pp : list nat -> Z) (N : nat) (u : ndarray K)
        (dims : list nat) :
  perm_parity_contract pp -> shape u = [3; N] ->
  fst (_batch_cross Env pp u u (cache_after Env pp dims (empty_cache K)))
  = Ok (zeros K [3; N]).
Proof.
  intros Hpp Hu.
  destruct (cross_general pp N u u _ Hpp (coherent_history pp dims) Hu Hu)
    as [out [-> [Hs [Hw [_ H]]]]].
  f_equal. apply ndarray_ext;
    [exact Hs | exact Hw
     | unfold well_formed, zeros; simpl; apply repeat_length |].
  rewrite Hs. intros idx Hidx.
  apply in_bounds_2_inv in Hidx. destruct Hidx as [i [k [-> [Hi Hk]]]].
  rewrite item_zeros. destruct (H k Hk) as [H0 [H1 H2]].
  destruct i as [|[|[|i]]]; try lia;
    [rewrite H0 | rewrite H1 | rewrite H2]; ring.
Qed.

(** X20.  One vector is crossed with every slot of a batch: on [u] of
    shape (3, 1) and [v] of shape (3, N), [_batch_cross] returns shape
    (3, N), slot [k] being the cross product of [u[:,0]] and
    [v[:,k]]. *)
Theorem batch_cross_single_vector (pp : list nat -> Z) (N : nat)
        (u v : ndarray K) (dims : list nat) :
  perm_parity_contract pp ->
  shape u = [3; 1%nat] -> shape v = [3; N] ->
  exists out,
    fst (_batch_cross Env pp u v (cache_after Env pp dims (empty_cache K))) = Ok out /\
    shape out = [3; N] /\ well_formed out /\
    forall k, (k < N)%nat ->
      item out [0%nat; k]
      = sub K (item u [1%nat; 0%nat] * item v [2; k])
              (item u [2; 0%nat] * item v [1%nat; k])
      /\
      item out [1%nat; k]
      = sub K (item u [2; 0%nat] * item v [0%nat; k])
              (item u [0%nat; 0%nat] * item v [2; k])
      /\
      item out [2; k]
      = sub K (item u [0%nat; 0%nat] * item v [1%nat; k])
              (item u [1%nat; 0%nat] * item v [0%nat; k]).
Proof.
  intros Hpp Hu Hv.
  rewrite (batch_cross_einsum pp u v _ 3 [1%nat]
             (coherent_history pp dims) Hu alloc_3).
  rewrite (levi_civita_3 pp Hpp).
  destruct u as [su du], v as [sv dv]. simpl in Hu, Hv. subst su sv.
  rewrite einsum_cross, broadcast_dim_same, broadcast_dim_1_l.
  eexists. split; [reflexivity|]. split; [reflexivity|].
  split; [apply well_formed_contract|].
  intros k Hk.
  rewrite !item_contract by (apply in_bounds_2; (assumption || lia)).
  cbn. rewrite !broadcast_index by assumption. repeat split; ring.
Qed.

(** ** Slots are independent *)


(** X19.  Slot [k] of the result of [_batch_cross] depends on slot [k]
    of the operands only. *)
Theorem batch_cross_slot_independent (pp : list nat -> Z) (N k : nat)
        (u u' v v' : ndarray K) (dims : list nat) :
  perm_parity_contract pp ->
  shape u = [3; N] -> shape u' = [3; N] ->
  shape v = [3; N] -> shape v' = [3; N] -> (k < N)%nat ->
  (forall i, (i < 3)%nat -> item u [i; k] = item u' [i; k]) ->
  (forall i, (i < 3)%nat -> item v [i; k] = item v' [i; k]) ->
  let c := cache_after Env pp dims (empty_cache K) in
  exists out out',
    fst (_batch_cross Env pp u v c) = Ok out /\
    fst (_batch_cross Env pp u' v' c) = Ok out' /\
    forall i, (i < 3)%nat -> item out [i; k] = item out' [i; k].
Proof.
  intros Hpp Hu Hu' Hv Hv' Hk Huk Hvk c.
  destruct (cross_general pp N u v c Hpp (coherent_history pp dims) Hu Hv)
    as [out [E [_ [_ [H _]]]]].
  destruct (cross_general pp N u' v' c Hpp (coherent_history pp dims) Hu' Hv')
    as [out' [E' [_ [_ [H' _]]]]].
  exists out, out'. split; [exact E|]. split; [exact E'|].
  intros i Hi. rewrite H, H' by assumption.
  apply sum_range_ext. intros j Hj. apply sum_range_ext. intros l Hl.
  rewrite Huk, Hvk by assumption. reflexivity.
Qed.

End Algebra.

(** * Concrete evaluations *)

(** The parity function modelled from the specification meets the
    contract the theorems assume. *)
Lemma perm_sign_contract : perm_parity_contract perm_sign.
Proof. intros p _. reflexivity. Qed.

(** The scenario of the specification: [d = 3], [N = 1], [u = [1,0,0]],
    [v = [0,1,0]] give [[0,0,1]]. *)
Example batch_cross_unit_vectors :
  fst (_batch_cross numpy_env perm_sign unit_x unit_y (empty_cache int_dtype))
  = Ok unit_z.
Proof. reflexivity. Qed.

Example batch_cross_two_slots :
  fst (_batch_cross numpy_env perm_sign vectors_a vectors_b (empty_cache int_dtype))
  = Ok (@NDArray int_dtype [3; 2] [-6; 10;  12; -2;  -6; -5]%Z).
Proof. reflexivity. Qed.

Example batch_matvec_two_slots :
  _batch_matvec matrices_222 vectors_22
  = Ok (@NDArray int_dtype [2; 2] [7; 34;  15; 46]%Z).
Proof. reflexivity. Qed.

Example batch_matmul_two_slots :
  _batch_matmul matrices_222 matrices_222'
  = Ok (@NDArray int_dtype [2; 2; 2] [4; 11;  3; 18;  8; 15;  7; 24]%Z).
Proof. reflexivity. Qed.

Example levi_civita_tensor_2 :
  fst (levi_civita_tensor numpy_env perm_sign 2 (empty_cache int_dtype))
  = Ok (@NDArray int_dtype [2; 2] [0; 1;  -1; 0]%Z).
Proof. reflexivity. Qed.

Example levi_civita_tensor_0 :
  fst (levi_civita_tensor numpy_env perm_sign 0 (empty_cache int_dtype))
  = Ok (@NDArray int_dtype [] [1%Z]).
Proof. reflexivity. Qed.

(** A tensor of 65 axes is more than [np.zeros] makes: the call raises,
    counts as a miss and stores nothing, so that after the calls for 3,
    65 and 3 the counters are 1 hit and 2 misses and the entry is the
    tensor of dimension 3. *)
Example levi_civita_tensor_65 :
  fst (levi_civita_tensor numpy_env perm_sign 65 (empty_cache int_dtype))
  = Raise ValueError_zeros.
Proof. reflexivity. Qed.

Example levi_civita_tensor_3_65_3 :
  let c := cache_after numpy_env perm_sign [3; 65; 3] (empty_cache int_dtype) in
  hits c = 1 /\ misses c = 2 /\
  entry c = Some (3, levi_civita_array int_dtype perm_sign 3).
Proof. repeat split. Qed.

(** A tensor of 10 axes of extent 10 is within the limits of NumPy and
    past the memory of this environment. *)
Example levi_civita_tensor_10 :
  fst (levi_civita_tensor numpy_env perm_sign 10 (empty_cache int_dtype))
  = Raise MemoryError.
Proof. reflexivity. Qed.

Example batch_cross_without_axes :
  fst (_batch_cross numpy_env perm_sign scalar_5 scalar_5 (empty_cache int_dtype))
  = Raise IndexError.
Proof. reflexivity. Qed.

Example batch_matvec_broadcast_error :
  _batch_matvec matrices_335 vectors_34
  = Raise (ValueError_broadcast [[3; 3; 5]; [3; 4]]).
Proof. reflexivity. Qed.

Example permutations_of_3 :
  permutations (range 3) 3
  = [[0; 1; 2]; [0; 2; 1]; [1; 0; 2]; [1; 2; 0]; [2; 0; 1]; [2; 1; 0]].
Proof. reflexivity. Qed.

(** * Witnesses and counterexamples *)

Lemma batch_matvec_spec_witness :
  (shape matrices_222 = [2; 2; 2] /\ shape vectors_22 = [2; 2]) /\
  exists out,
    _batch_matvec matrices_222 vectors_22 = Ok out /\
    shape out = [2; 2] /\ well_formed out /\
    forall i k, i < 2 -> k < 2 ->
      item out [i; k]
      = sum_range int_dtype 2
          (fun j => (item matrices_222 [i; j; k] * item vectors_22 [j; k])%Z).
Proof.
  split; [split; reflexivity|].
  exact (batch_matvec_spec int_dtype 2 2 matrices_222 vectors_22
           eq_refl eq_refl).
Defined.

Lemma batch_matmul_spec_witness :
  (shape matrices_222 = [2; 2; 2] /\ shape matrices_222' = [2; 2; 2]) /\
  exists out,
    _batch_matmul matrices_222 matrices_222' = Ok out /\
    shape out = [2; 2; 2] /\ well_formed out /\
    forall i l k, i < 2 -> l < 2 -> k < 2 ->
      item out [i; l; k]
      = sum_range int_dtype 2
          (fun j =>
             (item matrices_222 [i; j; k] * item matrices_222' [j; l; k])%Z).
Proof.
  split; [split; reflexivity|].
  exact (batch_matmul_spec int_dtype 2 2 matrices_222 matrices_222'
           eq_refl eq_refl).
Defined.

Lemma batch_matvec_matmul_compose_witness :
  exists out,
    result_bind (_batch_matmul matrices_222 matrices_222')
                (fun AB => _batch_matvec AB vectors_22) = Ok out /\
    result_bind (_batch_matvec matrices_222' vectors_22)
                (fun Bv => _batch_matvec matrices_222 Bv) = Ok out.
Proof.
  exact (batch_matvec_matmul_compose int_dtype 2 2
           matrices_222 matrices_222' vectors_22 eq_refl eq_refl eq_refl).
Defined.


Lemma kernels_on_empty_batches_witness :
  _batch_matvec matrices_330 vectors_30 = Ok (@NDArray int_dtype [3; 0] [])
  /\
  _batch_matmul matrices_330 matrices_330
  = Ok (@NDArray int_dtype [3; 3; 0] [])
  /\
  fst (_batch_cross numpy_env perm_sign vectors_30 vectors_30
         (cache_after numpy_env perm_sign [2; 3] (empty_cache int_dtype)))
  = Ok (@NDArray int_dtype [3; 0] []).
Proof.
  destruct (kernels_on_empty_batches int_dtype numpy_env perm_sign) as [Hv [Hm Hc]].
  split; [|split].
  - exact (Hv 3 matrices_330 vectors_30 eq_refl eq_refl).
  - exact (Hm 3 matrices_330 matrices_330 eq_refl eq_refl).
  - exact (Hc vectors_30 vectors_30 [2; 3] eq_refl eq_refl).
Defined.

Lemma batch_cross_dimension_3_witness :
  exists epsilon out,
    fst (levi_civita_tensor numpy_env perm_sign 3 (empty_cache int_dtype))
    = Ok epsilon /\
    fst (_batch_cross numpy_env perm_sign vectors_a vectors_b
           (empty_cache int_dtype)) = Ok out /\
    shape out = [3; 2] /\ well_formed out /\
    (forall i k, i < 3 -> k < 2 ->
       item out [i; k]
       = sum_range int_dtype 3 (fun j => sum_range int_dtype 3 (fun l =>
           (item epsilon [i; j; l]
            * item vectors_a [j; k] * item vectors_b [l; k])%Z))) /\
    (forall k, k < 2 ->
       item out [0%nat; k]
       = (item vectors_a [1%nat; k] * item vectors_b [2%nat; k]
          - item vectors_a [2%nat; k] * item vectors_b [1%nat; k])%Z
       /\
       item out [1%nat; k]
       = (item vectors_a [2%nat; k] * item vectors_b [0%nat; k]
          - item vectors_a [0%nat; k] * item vectors_b [2%nat; k])%Z
       /\
       item out [2%nat; k]
       = (item vectors_a [0%nat; k] * item vectors_b [1%nat; k]
          - item vectors_a [1%nat; k] * item vectors_b [0%nat; k])%Z).
Proof.
  exact (batch_cross_dimension_3 int_dtype numpy_env perm_sign 2 vectors_a vectors_b []
           perm_sign_contract eq_refl eq_refl).
Defined.

Lemma batch_cross_anticommutative_witness :
  exists out,
    fst (_batch_cross numpy_env perm_sign vectors_b vectors_a (empty_cache int_dtype))
    = Ok out /\
    fst (_batch_cross numpy_env perm_sign vectors_a vectors_b (empty_cache int_dtype))
    = Ok (neg out).
Proof.
  exact (batch_cross_anticommutative int_dtype numpy_env perm_sign 2
           vectors_a vectors_b [] perm_sign_contract eq_refl eq_refl).
Defined.

Lemma levi_civita_tensor_antisymmetric_witness :
  exists epsilon,
  fst (levi_civita_tensor numpy_env perm_sign 3 (empty_cache int_dtype))
  = Ok epsilon /\
  shape epsilon = [3; 3; 3] /\
  forall idx, in_bounds idx [3; 3; 3] ->
    (forall a b, a < 3 -> b < 3 -> a <> b ->
       nth a idx 0 = nth b idx 0 -> item epsilon idx = 0%Z) /\
    (Permutation idx (range 3) ->
       (perm_sign idx = 1%Z /\ item epsilon idx = 1%Z) \/
       (perm_sign idx = (-1)%Z /\ item epsilon idx = (-1)%Z)) /\
    (forall a b, a < 3 -> b < 3 -> a <> b ->
       item epsilon (swap a b idx) = (- item epsilon idx)%Z).
Proof.
  exact (levi_civita_tensor_antisymmetric int_dtype numpy_env perm_sign 3 []
           perm_sign_contract (or_intror (or_introl eq_refl))).
Defined.

Lemma levi_civita_tensor_cache_witness :
  let first :=
    levi_civita_tensor numpy_env perm_sign 3 (empty_cache int_dtype) in
  let again := levi_civita_tensor numpy_env perm_sign 3 (snd first) in
  let other := levi_civita_tensor numpy_env perm_sign 2 (snd first) in
  let back := levi_civita_tensor numpy_env perm_sign 3 (snd other) in
  let failed := levi_civita_tensor numpy_env perm_sign 65 (snd first) in
  let after := levi_civita_tensor numpy_env perm_sign 3 (snd failed) in
  fst first = Ok (levi_civita_array int_dtype perm_sign 3) /\
  (fst again = fst first /\
   misses (snd again) = 1 /\ hits (snd again) = 1) /\
  (fst back = fst first /\
   misses (snd back) = 3 /\ hits (snd back) = 0) /\
  (fst failed = Raise ValueError_zeros /\ fst after = fst first /\
   misses (snd after) = 2 /\ hits (snd after) = 1).
Proof.
  destruct (levi_civita_tensor_cache int_dtype numpy_env perm_sign [] 3 2)
    as [H1 [_ [Ha [Hb Hr]]]].
  destruct (levi_civita_tensor_cache int_dtype numpy_env perm_sign [] 3 65)
    as [_ [_ [_ [Hb' Hr']]]].
  assert (Hd : 2 <> 3) by discriminate.
  assert (Hd' : 65 <> 3) by discriminate.
  exact (conj H1
          (conj (Ha _ eq_refl)
            (conj (conj Hb (Hr Hd _ eq_refl))
              (conj eq_refl (conj Hb' (Hr' Hd' _ eq_refl)))))).
Defined.


(** C1 fails in dimension 2: on two batches of shape (2, 1) the call
    raises, the tensor of shape (2, 2) having two axes against the three
    subscripts, and returns no batch. *)
Lemma batch_cross_dimension_2 :
  shape plane_u = [2; 1] /\ shape plane_v = [2; 1] /\
  fst (_batch_cross numpy_env perm_sign plane_u plane_v (empty_cache int_dtype))
  = Raise (ValueError_subscripts 0) /\
  ~ (exists out,
        fst (_batch_cross numpy_env perm_sign plane_u plane_v (empty_cache int_dtype))
        = Ok out /\ shape out = [2; 1]).
Proof.
  repeat split. intros [out [H _]]. discriminate H.
Qed.

(** C7 fails in dimension 2: on two batches of one shape (2, 1) both
    calls raise, and no batch is the negation of another. *)
Lemma batch_cross_dimension_2_no_negation :
  shape plane_u = [2; 1] /\ shape plane_v = [2; 1] /\
  fst (_batch_cross numpy_env perm_sign plane_u plane_v (empty_cache int_dtype))
  = Raise (ValueError_subscripts 0) /\
  fst (_batch_cross numpy_env perm_sign plane_v plane_u (empty_cache int_dtype))
  = Raise (ValueError_subscripts 0) /\
  ~ (exists out,
        fst (_batch_cross numpy_env perm_sign plane_v plane_u (empty_cache int_dtype))
        = Ok out /\
        fst (_batch_cross numpy_env perm_sign plane_u plane_v (empty_cache int_dtype))
        = Ok (neg out)).
Proof.
  repeat split. intros [out [H _]]. discriminate H.
Qed.


Lemma batch_cross_orthogonal_witness :
  exists out,
    fst (_batch_cross numpy_env perm_sign vectors_a vectors_b (empty_cache int_dtype))
    = Ok out /\
    forall k, k < 2 ->
      sum_range int_dtype 3
        (fun i => (item out [i; k] * item vectors_a [i; k])%Z) = 0%Z /\
      sum_range int_dtype 3
        (fun i => (item out [i; k] * item vectors_b [i; k])%Z) = 0%Z.
Proof.
  exact (batch_cross_orthogonal int_dtype numpy_env perm_sign 2 vectors_a vectors_b []
           perm_sign_contract eq_refl eq_refl).
Defined.

Lemma batch_matvec_linear_witness :
  exists out out1 out2,
    _batch_matvec matrices_222 vectors_22_combined = Ok out /\
    _batch_matvec matrices_222 vectors_22 = Ok out1 /\
    _batch_matvec matrices_222 vectors_22' = Ok out2 /\
    forall i k, i < 2 -> k < 2 ->
      item out [i; k] = (2 * item out1 [i; k] + 3 * item out2 [i; k])%Z.
Proof.
  apply (batch_matvec_linear int_dtype 2 2 matrices_222 vectors_22_combined
           vectors_22 vectors_22' 2%Z 3%Z eq_refl eq_refl eq_refl eq_refl).
  intros j k Hj Hk.
  destruct j as [|[|j]]; [| |lia]; (destruct k as [|[|k]]; [| |lia]);
    reflexivity.
Defined.

(** * Witnesses of the further properties *)

Lemma levi_civita_tensor_entries_witness :
  in_bounds [1; 2; 0] [3; 3; 3] /\
  exists epsilon,
    fst (levi_civita_tensor numpy_env perm_sign 3
           (cache_after numpy_env perm_sign [2] (empty_cache int_dtype)))
    = Ok epsilon /\
    item epsilon [1; 2; 0] = perm_sign [1; 2; 0].
Proof.
  assert (H : in_bounds [1; 2; 0] (repeat 3 3))
    by (repeat constructor).
  split; [exact H|].
  destruct (levi_civita_tensor_entries int_dtype numpy_env perm_sign 3 [2]
              [1; 2; 0] H) as [Hr Hv].
  destruct (Hr eq_refl) as [epsilon Heps].
  exists epsilon. split; [exact Heps | exact (Hv epsilon Heps)].
Defined.



Lemma batch_cross_cache_effect_witness :
  shape plane_u = [2; 1] /\
  entry (snd (_batch_cross numpy_env perm_sign plane_u plane_v
                (cache_after numpy_env perm_sign [3] (empty_cache int_dtype))))
  = Some (2, levi_civita_array int_dtype perm_sign 2) /\
  fst (_batch_cross numpy_env perm_sign plane_u plane_v
         (cache_after numpy_env perm_sign [3] (empty_cache int_dtype)))
  = Raise (ValueError_subscripts 0) /\
  shape vectors_65_0 = [65; 0] /\
  entry (snd (_batch_cross numpy_env perm_sign vectors_65_0 vectors_65_0
                (cache_after numpy_env perm_sign [3] (empty_cache int_dtype))))
  = Some (3, levi_civita_array int_dtype perm_sign 3) /\
  fst (_batch_cross numpy_env perm_sign vectors_65_0 vectors_65_0
         (cache_after numpy_env perm_sign [3] (empty_cache int_dtype)))
  = Raise ValueError_zeros.
Proof.
  assert (Hd : 2 <> 3) by discriminate.
  assert (H2 :
    entry (snd (_batch_cross numpy_env perm_sign plane_u plane_v
                  (cache_after numpy_env perm_sign [3]
                     (empty_cache int_dtype))))
    = Some (2, levi_civita_array int_dtype perm_sign 2) /\
    (2 <> 3 ->
     fst (_batch_cross numpy_env perm_sign plane_u plane_v
            (cache_after numpy_env perm_sign [3] (empty_cache int_dtype)))
     = Raise (ValueError_subscripts 0)))
    by exact (batch_cross_cache_effect int_dtype numpy_env perm_sign
                plane_u plane_v [3] 2 [1] eq_refl).
  assert (H65 :
    entry (snd (_batch_cross numpy_env perm_sign vectors_65_0 vectors_65_0
                  (cache_after numpy_env perm_sign [3]
                     (empty_cache int_dtype))))
    = Some (3, levi_civita_array int_dtype perm_sign 3) /\
    fst (_batch_cross numpy_env perm_sign vectors_65_0 vectors_65_0
           (cache_after numpy_env perm_sign [3] (empty_cache int_dtype)))
    = Raise ValueError_zeros)
    by exact (batch_cross_cache_effect int_dtype numpy_env perm_sign
                vectors_65_0 vectors_65_0 [3] 65 [0] eq_refl).
  destruct H2 as [He Hr]. destruct H65 as [He' Hr'].
  exact (conj eq_refl (conj He (conj (Hr Hd)
          (conj eq_refl (conj He' Hr'))))).
Defined.

Lemma kernel_rank_errors_witness :
  ndim vectors_22 <> 3 /\
  _batch_matvec vectors_22 vectors_22 = Raise (ValueError_subscripts 0) /\
  ndim matrices_222 = 3 /\ ndim matrices_222 <> 2 /\
  _batch_matvec matrices_222 matrices_222 = Raise (ValueError_subscripts 1).
Proof.
  assert (H0 : ndim vectors_22 <> 3) by discriminate.
  assert (H1 : ndim matrices_222 <> 2) by discriminate.
  destruct (kernel_rank_errors int_dtype numpy_env perm_sign) as [Hmv _].
  exact (conj H0
          (conj (proj1 (Hmv vectors_22 vectors_22) H0)
            (conj eq_refl
              (conj H1 (proj2 (Hmv matrices_222 matrices_222) eq_refl H1))))).
Defined.

Lemma batch_matvec_returns_witness :
  _batch_matvec matrices_335 vectors_31
  = Ok (@NDArray int_dtype [3; 5]
          [46; 52; 58; 64; 70;
           136; 142; 148; 154; 160;
           226; 232; 238; 244; 250]%Z) /\
  exists p q n q' n' N,
    shape matrices_335 = [p; q; n] /\ shape vectors_31 = [q'; n'] /\
    agree q q' /\ broadcast_dim n n' = Some N /\
    [3; 5] = [p; N] /\
    well_formed (@NDArray int_dtype [3; 5]
          [46; 52; 58; 64; 70;
           136; 142; 148; 154; 160;
           226; 232; 238; 244; 250]%Z).
Proof.
  split; [reflexivity|].
  exact (batch_matvec_returns int_dtype matrices_335 vectors_31 _ eq_refl).
Defined.

Lemma batch_matmul_returns_witness :
  exists p q n q' r n' N,
    shape matrices_232 = [p; q; n] /\ shape matrices_322 = [q'; r; n'] /\
    agree q q' /\ broadcast_dim n n' = Some N /\
    [2; 2; 2] = [p; r; N] /\
    well_formed (@NDArray int_dtype [2; 2; 2]
                   [61; 88;  79; 112;  151; 196;  205; 256]%Z).
Proof.
  exact (batch_matmul_returns int_dtype matrices_232 matrices_322
           (@NDArray int_dtype [2; 2; 2]
              [61; 88;  79; 112;  151; 196;  205; 256]%Z) eq_refl).
Defined.





Lemma eye_222_identity (i j k : nat) :
  i < 2 -> j < 2 -> k < 2 ->
  item eye_222 [i; j; k] = if i =? j then 1%Z else 0%Z.
Proof.
  intros Hi Hj Hk.
  destruct i as [|[|i]]; [| |lia]; (destruct j as [|[|j]]; [| |lia]);
    (destruct k as [|[|k]]; [| |lia]); reflexivity.
Defined.

Lemma batch_matvec_identity_witness :
  _batch_matvec eye_222 vectors_22 = Ok vectors_22.
Proof.
  exact (batch_matvec_identity int_dtype 2 2 eye_222 vectors_22
           eq_refl eq_refl eq_refl eye_222_identity).
Defined.

Lemma batch_matmul_identity_witness :
  _batch_matmul eye_222 matrices_222 = Ok matrices_222 /\
  _batch_matmul matrices_222 eye_222 = Ok matrices_222.
Proof.
  exact (batch_matmul_identity int_dtype 2 2 eye_222 matrices_222
           eq_refl eq_refl eq_refl eye_222_identity).
Defined.

Lemma batch_cross_self_witness :
  fst (_batch_cross numpy_env perm_sign vectors_a vectors_a (empty_cache int_dtype))
  = Ok (zeros int_dtype [3; 2]).
Proof.
  exact (batch_cross_self int_dtype numpy_env perm_sign 2 vectors_a []
           perm_sign_contract eq_refl).
Defined.

Lemma batch_cross_single_vector_witness :
  exists out,
    fst (_batch_cross numpy_env perm_sign unit_x vectors_b (empty_cache int_dtype))
    = Ok out /\
    shape out = [3; 2] /\ well_formed out /\
    forall k, k < 2 ->
      item out [0%nat; k]
      = (item unit_x [1%nat; 0%nat] * item vectors_b [2%nat; k]
         - item unit_x [2%nat; 0%nat] * item vectors_b [1%nat; k])%Z
      /\
      item out [1%nat; k]
      = (item unit_x [2%nat; 0%nat] * item vectors_b [0%nat; k]
         - item unit_x [0%nat; 0%nat] * item vectors_b [2%nat; k])%Z
      /\
      item out [2%nat; k]
      = (item unit_x [0%nat; 0%nat] * item vectors_b [1%nat; k]
         - item unit_x [1%nat; 0%nat] * item vectors_b [0%nat; k])%Z.
Proof.
  exact (batch_cross_single_vector int_dtype numpy_env perm_sign 2 unit_x vectors_b []
           perm_sign_contract eq_refl eq_refl).
Defined.


Lemma batch_cross_slot_independent_witness :
  exists out out',
    fst (_batch_cross numpy_env perm_sign vectors_a vectors_b (empty_cache int_dtype))
    = Ok out /\
    fst (_batch_cross numpy_env perm_sign vectors_a_other vectors_b_other
           (empty_cache int_dtype)) = Ok out' /\
    forall i, i < 3 -> item out [i; 0] = item out' [i; 0].
Proof.
  assert (Hk : 0 < 2) by (repeat constructor).
  apply (batch_cross_slot_independent int_dtype numpy_env perm_sign 2 0
           vectors_a vectors_a_other vectors_b vectors_b_other []
           perm_sign_contract eq_refl eq_refl eq_refl eq_refl Hk).
  - intros i Hi. destruct i as [|[|[|i]]]; [| | |lia]; reflexivity.
  - intros i Hi. destruct i as [|[|[|i]]]; [| | |lia]; reflexivity.
Defined.
